(** * Internal ballistics of a hybrid rocket motor: [hybrid.py]

    A shallow embedding of the four physics functions and of the time-marching
    loop of [simulate_hybrid_rocket], followed by the properties the
    specification states about them.

    The program text is embedded once, over an interface [Arith] that lists
    the arithmetic the source uses (the literals [0] and [2], [np.pi], [+],
    [*], [/], [**] and [<]).  Two arithmetics instantiate it:
    - [exact]: real numbers, where the algebra of the specification lives;
    - [binary64]: IEEE 754 double precision, the arithmetic of a Python
      [float], on the kernel's primitive floats.

    Properties that only depend on the control flow are proved for every
    arithmetic, hence for both. *)

From Stdlib Require Import String.
From Stdlib Require Import List Bool ZArith Lia.
From Stdlib Require Import Reals Lra Psatz.
From Stdlib Require Import Floats QArith Qround.
Import ListNotations.
Close Scope Q_scope.

#[local] Set Warnings "-inexact-float".

(* ------------------------------------------------------------------ *)
(** ** Exceptions and the error monad *)

(** What ends a call of [simulate_hybrid_rocket] other than its [return]. *)
Inductive exn : Type :=
| UnboundLocalError (name : string)  (* a local read before any assignment *)
| ZeroDivisionError                  (* [x / 0], [0.0 ** negative] *)
| ComplexResult                      (* negative base, fractional exponent:
                                        the value leaves the floats *)
| OutsideModel (what : string).      (* an operation this file gives no value *)

Inductive result (A : Type) : Type :=
| Ok (a : A)
| Raise (e : exn).
Arguments Ok {A} a.
Arguments Raise {A} e.

Definition bind {A B : Type} (m : result A) (k : A -> result B) : result B :=
  match m with
  | Ok a => k a
  | Raise e => Raise e
  end.

Notation "x <- m ;; k" := (bind m (fun x => k))
  (at level 61, m at next level, right associativity).

(* ------------------------------------------------------------------ *)
(** ** The arithmetic of the source *)

Class Arith (num : Type) : Type := {
  zero : num;                       (* the literal [0] *)
  two : num;                        (* the literal [2] *)
  pi : num;                         (* [np.pi] *)
  add : num -> num -> num;          (* [+], [+=] *)
  mul : num -> num -> num;          (* [*] *)
  div : num -> num -> result num;   (* [/] *)
  pow : num -> num -> result num;   (* [**] *)
  lt : num -> num -> bool           (* [<] *)
}.

(** The module-level constants, lines 5-16. *)
Record Constants (num : Type) : Type := {
  REGRESSION_RATE_COEFFICIENT : num;
  OXIDIZER_FLUX_EXPONENT : num;
  FUEL_DENSITY : num;
  GRAIN_LENGTH : num;
  INITIAL_PORT_RADIUS : num;
  MAX_PORT_RADIUS : num;
  OXIDIZER_MASS_FLOW_RATE : num;
  CHARACTERISTIC_VELOCITY : num;
  THROAT_AREA : num;
  DELTA_T : num;
  SIMULATION_DURATION : num;
  SINGULARITY_THRESHOLD : num
}.
Arguments REGRESSION_RATE_COEFFICIENT {num} _.
Arguments OXIDIZER_FLUX_EXPONENT {num} _.
Arguments FUEL_DENSITY {num} _.
Arguments GRAIN_LENGTH {num} _.
Arguments INITIAL_PORT_RADIUS {num} _.
Arguments MAX_PORT_RADIUS {num} _.
Arguments OXIDIZER_MASS_FLOW_RATE {num} _.
Arguments CHARACTERISTIC_VELOCITY {num} _.
Arguments THROAT_AREA {num} _.
Arguments DELTA_T {num} _.
Arguments SIMULATION_DURATION {num} _.
Arguments SINGULARITY_THRESHOLD {num} _.

(** The local variables of [simulate_hybrid_rocket].  Those first assigned
    inside the loop body are unbound ([None]) until then. *)
Record Locals (num : Type) : Type := {
  time : num;
  port_radius : num;
  total_fuel_consumed : num;
  time_data : list num;
  port_radius_data : list num;
  chamber_pressure_data : list num;
  thrust_data : list num;
  oxidizer_flux : option num;
  regression_rate : option num;
  fuel_flow_rate : option num;
  total_mass_flow_rate : option num;
  chamber_pressure : option num;
  thrust : option num
}.
Arguments time {num} _.
Arguments port_radius {num} _.
Arguments total_fuel_consumed {num} _.
Arguments time_data {num} _.
Arguments port_radius_data {num} _.
Arguments chamber_pressure_data {num} _.
Arguments thrust_data {num} _.
Arguments oxidizer_flux {num} _.
Arguments regression_rate {num} _.
Arguments fuel_flow_rate {num} _.
Arguments total_mass_flow_rate {num} _.
Arguments chamber_pressure {num} _.
Arguments thrust {num} _.

(** The 8-tuple of line 93, with the names [main] unpacks it to. *)
Module Returned.
Record t (num : Type) : Type := {
  time_data : list num;
  port_radius_data : list num;
  chamber_pressure_data : list num;
  thrust_data : list num;
  total_fuel_consumed : num;
  final_port_radius : num;
  final_chamber_pressure : num;
  final_thrust : num
}.
Arguments time_data {num} _.
Arguments port_radius_data {num} _.
Arguments chamber_pressure_data {num} _.
Arguments thrust_data {num} _.
Arguments total_fuel_consumed {num} _.
Arguments final_port_radius {num} _.
Arguments final_chamber_pressure {num} _.
Arguments final_thrust {num} _.
End Returned.

(* ------------------------------------------------------------------ *)
(** ** The program *)

Section Program.
Context {num : Type} {A : Arith num}.
Variable c : Constants num.

(** Lines 19-26.  Both branches of the guard hold the same expression. *)
Definition calculate_regression_rate (port_radius oxidizer_flux : num)
  : result num :=
  if lt port_radius (SINGULARITY_THRESHOLD c) then
    p <- pow oxidizer_flux (OXIDIZER_FLUX_EXPONENT c) ;;
    Ok (mul (REGRESSION_RATE_COEFFICIENT c) p)
  else
    p <- pow oxidizer_flux (OXIDIZER_FLUX_EXPONENT c) ;;
    Ok (mul (REGRESSION_RATE_COEFFICIENT c) p).

(** Lines 28-33. *)
Definition calculate_fuel_flow_rate (port_radius regression_rate : num)
  : num :=
  let surface_area := mul (mul (mul two pi) port_radius) (GRAIN_LENGTH c) in
  mul (mul (FUEL_DENSITY c) surface_area) regression_rate.

(** Lines 35-39. *)
Definition calculate_chamber_pressure (total_mass_flow_rate : num)
  : result num :=
  div (mul total_mass_flow_rate (CHARACTERISTIC_VELOCITY c)) (THROAT_AREA c).

(** Lines 41-45. *)
Definition calculate_thrust (total_mass_flow_rate : num) : num :=
  mul total_mass_flow_rate (CHARACTERISTIC_VELOCITY c).

(** Lines 53-58: the state on entry to the loop. *)
Definition initial_locals : Locals num :=
  {| time := zero;
     port_radius := INITIAL_PORT_RADIUS c;
     total_fuel_consumed := zero;
     time_data := [];
     port_radius_data := [];
     chamber_pressure_data := [];
     thrust_data := [];
     oxidizer_flux := None;
     regression_rate := None;
     fuel_flow_rate := None;
     total_mass_flow_rate := None;
     chamber_pressure := None;
     thrust := None |}.

(** Line 60: the loop test. *)
Definition loop_test (l : Locals num) : bool :=
  lt (time l) (SIMULATION_DURATION c)
  && lt (port_radius l) (MAX_PORT_RADIUS c).

(** Lines 62-90: one pass through the loop body.  The assignments keep the
    names and the order of the source; [squared] is [port_radius**2]. *)
Definition loop_body (l : Locals num) : result (Locals num) :=
  squared <- pow (port_radius l) two ;;
  oxidizer_flux <- div (OXIDIZER_MASS_FLOW_RATE c) (mul pi squared) ;;
  regression_rate <-
    calculate_regression_rate (port_radius l) oxidizer_flux ;;
  let port_radius := add (port_radius l) (mul regression_rate (DELTA_T c)) in
  let fuel_flow_rate :=
    calculate_fuel_flow_rate port_radius regression_rate in
  let total_mass_flow_rate :=
    add (OXIDIZER_MASS_FLOW_RATE c) fuel_flow_rate in
  chamber_pressure <- calculate_chamber_pressure total_mass_flow_rate ;;
  let thrust := calculate_thrust total_mass_flow_rate in
  let total_fuel_consumed :=
    add (total_fuel_consumed l) (mul fuel_flow_rate (DELTA_T c)) in
  Ok {| time := add (time l) (DELTA_T c);
        port_radius := port_radius;
        total_fuel_consumed := total_fuel_consumed;
        time_data := time_data l ++ [time l];
        port_radius_data := port_radius_data l ++ [port_radius];
        chamber_pressure_data := chamber_pressure_data l ++ [chamber_pressure];
        thrust_data := thrust_data l ++ [thrust];
        oxidizer_flux := Some oxidizer_flux;
        regression_rate := Some regression_rate;
        fuel_flow_rate := Some fuel_flow_rate;
        total_mass_flow_rate := Some total_mass_flow_rate;
        chamber_pressure := Some chamber_pressure;
        thrust := Some thrust |}.

(** The [while] of line 60; [budget] bounds the number of tests of the
    condition, and [None] says that the bound was too small. *)
Fixpoint while_loop (budget : nat) (l : Locals num)
  : option (result (Locals num)) :=
  match budget with
  | O => None
  | S budget' =>
      if loop_test l then
        match loop_body l with
        | Ok l' => while_loop budget' l'
        | Raise e => Some (Raise e)
        end
      else Some (Ok l)
  end.

(** Line 93: the tuple is built left to right, and reading a local that no
    pass of the loop assigned raises [UnboundLocalError]. *)
Definition return_tuple (l : Locals num) : result (Returned.t num) :=
  match chamber_pressure l, thrust l with
  | None, _ => Raise (UnboundLocalError "chamber_pressure")
  | Some _, None => Raise (UnboundLocalError "thrust")
  | Some chamber_pressure, Some thrust =>
      Ok {| Returned.time_data := time_data l;
            Returned.port_radius_data := port_radius_data l;
            Returned.chamber_pressure_data := chamber_pressure_data l;
            Returned.thrust_data := thrust_data l;
            Returned.total_fuel_consumed := total_fuel_consumed l;
            Returned.final_port_radius := port_radius l;
            Returned.final_chamber_pressure := chamber_pressure;
            Returned.final_thrust := thrust |}
  end.

(** Lines 47-93. *)
Definition simulate_hybrid_rocket (budget : nat)
  : option (result (Returned.t num)) :=
  match while_loop budget initial_locals with
  | None => None
  | Some (Raise e) => Some (Raise e)
  | Some (Ok l) => Some (return_tuple l)
  end.

(** The time after [k] passes: [k] additions of the time step to [0]. *)
Definition clock (k : nat) : num :=
  Nat.iter k (fun t => add t (DELTA_T c)) zero.

(** The formula of the specification for the regression rate, without the
    guard: [coefficient * oxidizerFlux ^ exponent]. *)
Definition regression_rate_formula (oxidizer_flux : num) : result num :=
  p <- pow oxidizer_flux (OXIDIZER_FLUX_EXPONENT c) ;;
  Ok (mul (REGRESSION_RATE_COEFFICIENT c) p).

(** A run as the sequence of its passes: [History h l] says that the loop,
    started from [initial_locals], reached [l] through the passes [h], each
    a pair of the locals before and after a pass that the test let in. *)
Inductive History : list (Locals num * Locals num) -> Locals num -> Prop :=
| History_start : History [] initial_locals
| History_pass h l l' :
    History h l ->
    loop_test l = true ->
    loop_body l = Ok l' ->
    History (h ++ [(l, l')]) l'.

End Program.

Arguments History {num A} c h l.

(* ------------------------------------------------------------------ *)
(** ** Exact arithmetic: the real numbers *)

Definition Rlt_bool (x y : R) : bool :=
  if Rlt_dec x y then true else false.

(** [x / y] of Python raises on a zero divisor. *)
Definition exact_div (x y : R) : result R :=
  if Req_dec_T y 0 then Raise ZeroDivisionError else Ok (x / y)%R.

(** [x ** y] of Python on real numbers: [x ** 0] is [1] for every [x]; a
    positive base gives [exp (y * ln x)]; [0 ** y] is [0] for positive [y] and
    raises for negative [y]; a negative base has a real power only for an
    integer exponent. *)
Definition exact_pow (x y : R) : result R :=
  if Req_dec_T y 0 then Ok 1%R
  else if Rlt_dec 0 x then Ok (Rpower x y)
  else if Req_dec_T x 0 then
    if Rlt_dec 0 y then Ok 0%R else Raise ZeroDivisionError
  else if Req_dec_T (IZR (Int_part y)) y then Ok (powerRZ x (Int_part y))
  else Raise ComplexResult.

#[export] Instance exact : Arith R := {|
  zero := 0%R;
  two := 2%R;
  pi := PI;
  add := Rplus;
  mul := Rmult;
  div := exact_div;
  pow := exact_pow;
  lt := Rlt_bool
|}.

(** The invariant the specification puts on the constants: every value is
    strictly positive and the maximum port radius exceeds the initial one. *)
Definition valid (c : Constants R) : Prop :=
  (0 < REGRESSION_RATE_COEFFICIENT c
   /\ 0 < OXIDIZER_FLUX_EXPONENT c
   /\ 0 < FUEL_DENSITY c
   /\ 0 < GRAIN_LENGTH c
   /\ 0 < INITIAL_PORT_RADIUS c
   /\ 0 < MAX_PORT_RADIUS c
   /\ 0 < OXIDIZER_MASS_FLOW_RATE c
   /\ 0 < CHARACTERISTIC_VELOCITY c
   /\ 0 < THROAT_AREA c
   /\ 0 < DELTA_T c
   /\ 0 < SIMULATION_DURATION c
   /\ 0 < SINGULARITY_THRESHOLD c
   /\ INITIAL_PORT_RADIUS c < MAX_PORT_RADIUS c)%R.

(** The least integer that is not below [x]. *)
Definition ceiling (x : R) : Z := (- Int_part (- x))%Z.


(** The constants of lines 5-16 as real numbers. *)
Definition source_constants : Constants R :=
  {| REGRESSION_RATE_COEFFICIENT := (5 / 1000)%R;
     OXIDIZER_FLUX_EXPONENT := (8 / 10)%R;
     FUEL_DENSITY := 970%R;
     GRAIN_LENGTH := 1%R;
     INITIAL_PORT_RADIUS := (2 / 100)%R;
     MAX_PORT_RADIUS := (5 / 10)%R;
     OXIDIZER_MASS_FLOW_RATE := (5 / 10)%R;
     CHARACTERISTIC_VELOCITY := 1500%R;
     THROAT_AREA := (1 / 100)%R;
     DELTA_T := (1 / 100)%R;
     SIMULATION_DURATION := 10%R;
     SINGULARITY_THRESHOLD := (1 / 100)%R |}.


(** The constants of the source with the maximum port radius lowered to the
    initial one: the degenerate configuration of the specification. *)
Definition degenerate_constants : Constants R :=
  {| REGRESSION_RATE_COEFFICIENT := (5 / 1000)%R;
     OXIDIZER_FLUX_EXPONENT := (8 / 10)%R;
     FUEL_DENSITY := 970%R;
     GRAIN_LENGTH := 1%R;
     INITIAL_PORT_RADIUS := (2 / 100)%R;
     MAX_PORT_RADIUS := (2 / 100)%R;
     OXIDIZER_MASS_FLOW_RATE := (5 / 10)%R;
     CHARACTERISTIC_VELOCITY := 1500%R;
     THROAT_AREA := (1 / 100)%R;
     DELTA_T := (1 / 100)%R;
     SIMULATION_DURATION := 10%R;
     SINGULARITY_THRESHOLD := (1 / 100)%R |}.

(** The steep configuration with the maximum port radius at twice the
    initial one: the first pass already carries the radius beyond it. *)
Definition overshoot_constants : Constants R :=
  {| REGRESSION_RATE_COEFFICIENT := 1000%R;
     OXIDIZER_FLUX_EXPONENT := 2%R;
     FUEL_DENSITY := 1000000%R;
     GRAIN_LENGTH := 1%R;
     INITIAL_PORT_RADIUS := 1%R;
     MAX_PORT_RADIUS := 2%R;
     OXIDIZER_MASS_FLOW_RATE := 1%R;
     CHARACTERISTIC_VELOCITY := 1%R;
     THROAT_AREA := 1%R;
     DELTA_T := 1%R;
     SIMULATION_DURATION := 2%R;
     SINGULARITY_THRESHOLD := (1 / 100)%R |}.

(** The values one pass computes from the port radius [r] it starts with,
    in closed form, for a positive radius and valid constants. *)
Section Pass.
Variable c : Constants R.

Definition flux_at (r : R) : R :=
  (OXIDIZER_MASS_FLOW_RATE c / (PI * Rpower r 2))%R.

Definition rate_at (r : R) : R :=
  (REGRESSION_RATE_COEFFICIENT c
   * Rpower (flux_at r) (OXIDIZER_FLUX_EXPONENT c))%R.

Definition radius_after (r : R) : R :=
  (r + rate_at r * DELTA_T c)%R.

Definition fuel_flow_at (r : R) : R :=
  (FUEL_DENSITY c * (2 * PI * radius_after r * GRAIN_LENGTH c)
   * rate_at r)%R.

Definition total_flow_at (r : R) : R :=
  (OXIDIZER_MASS_FLOW_RATE c + fuel_flow_at r)%R.

Definition thrust_at (r : R) : R :=
  (total_flow_at r * CHARACTERISTIC_VELOCITY c)%R.

Definition pressure_at (r : R) : R :=
  (total_flow_at r * CHARACTERISTIC_VELOCITY c / THROAT_AREA c)%R.

(** The port radius on entry to pass [k]. *)
Definition radius_before (k : nat) : R :=
  Nat.iter k radius_after (INITIAL_PORT_RADIUS c).

(** [ceil (simulationDuration / timeStep)], as a number of passes. *)
Definition pass_bound : nat :=
  Z.to_nat (ceiling (SIMULATION_DURATION c / DELTA_T c)).
End Pass.

(* ------------------------------------------------------------------ *)
(** ** Binary64 arithmetic: the floats of Python *)

(** [x / y] of a Python float: a zero divisor of either sign raises. *)
Definition binary64_div (x y : float) : result float :=
  if PrimFloat.eqb y 0%float then Raise ZeroDivisionError
  else Ok (PrimFloat.div x y).

(** [x ** y] of a Python float.  [float_pow] of CPython answers [1.0] itself
    when the exponent is zero or the base is [1.0]; every other finite case
    goes to [pow] of the C library, whose rounding no definition here
    reproduces: those calls are left outside the model. *)
Definition binary64_pow (x y : float) : result float :=
  if PrimFloat.eqb y 0%float then Ok 1%float
  else if PrimFloat.eqb x 1%float then Ok 1%float
  else Raise (OutsideModel "pow of the C library").

(** Binary64 arithmetic around a given power function. *)
Definition binary64_with (power : float -> float -> result float)
  : Arith float := {|
  zero := 0%float;
  two := 2%float;
  pi := 0x1.921fb54442d18p+1%float;
  add := PrimFloat.add;
  mul := PrimFloat.mul;
  div := binary64_div;
  pow := power;
  lt := PrimFloat.ltb
|}.

#[export] Instance binary64 : Arith float := binary64_with binary64_pow.

(** The time after [k] passes when the time step is [0.01]: [k] additions of
    [0.01] to [0]. *)
Definition centisecond_clock (k : nat) : float :=
  Nat.iter k (fun t => PrimFloat.add t 0.01%float) 0%float.

(** The constants of lines 5-16 as floats. *)
Definition source_floats : Constants float :=
  {| REGRESSION_RATE_COEFFICIENT := 0.005%float;
     OXIDIZER_FLUX_EXPONENT := 0.8%float;
     FUEL_DENSITY := 970%float;
     GRAIN_LENGTH := 1%float;
     INITIAL_PORT_RADIUS := 0.02%float;
     MAX_PORT_RADIUS := 0.5%float;
     OXIDIZER_MASS_FLOW_RATE := 0.5%float;
     CHARACTERISTIC_VELOCITY := 1500%float;
     THROAT_AREA := 0.01%float;
     DELTA_T := 0.01%float;
     SIMULATION_DURATION := 10%float;
     SINGULARITY_THRESHOLD := 0.01%float |}.

(** The degenerate configuration of the specification: the constants of the
    source with [MAX_PORT_RADIUS] lowered to [INITIAL_PORT_RADIUS]. *)
Definition degenerate_floats : Constants float :=
  {| REGRESSION_RATE_COEFFICIENT := 0.005%float;
     OXIDIZER_FLUX_EXPONENT := 0.8%float;
     FUEL_DENSITY := 970%float;
     GRAIN_LENGTH := 1%float;
     INITIAL_PORT_RADIUS := 0.02%float;
     MAX_PORT_RADIUS := 0.02%float;
     OXIDIZER_MASS_FLOW_RATE := 0.5%float;
     CHARACTERISTIC_VELOCITY := 1500%float;
     THROAT_AREA := 0.01%float;
     DELTA_T := 0.01%float;
     SIMULATION_DURATION := 10%float;
     SINGULARITY_THRESHOLD := 0.01%float |}.

(** A slow-burning configuration: a port of radius [1.0] fed with [pi] kg/s
    of oxidizer has flux [1.0], and the regression per step, [1e-22], is
    below half a unit in the last place of the radius, so that the radius and
    the flux keep their values and every [**] of the run has base [1.0].
    Fuel density, grain length, characteristic velocity, time step, duration
    and exponent are those of the source. *)
Definition slow_burn_floats : Constants float :=
  {| REGRESSION_RATE_COEFFICIENT := 1e-20%float;
     OXIDIZER_FLUX_EXPONENT := 0.8%float;
     FUEL_DENSITY := 970%float;
     GRAIN_LENGTH := 1%float;
     INITIAL_PORT_RADIUS := 1%float;
     MAX_PORT_RADIUS := 2%float;
     OXIDIZER_MASS_FLOW_RATE := 0x1.921fb54442d18p+1%float;
     CHARACTERISTIC_VELOCITY := 1500%float;
     THROAT_AREA := 0.03%float;
     DELTA_T := 0.01%float;
     SIMULATION_DURATION := 10%float;
     SINGULARITY_THRESHOLD := 0.01%float |}.

(** All four series of a returned tuple, read at one index. *)
Definition row {num : Type} (out : Returned.t num) (i : nat)
  : option (num * num * num * num) :=
  match nth_error (Returned.time_data out) i,
        nth_error (Returned.port_radius_data out) i,
        nth_error (Returned.chamber_pressure_data out) i,
        nth_error (Returned.thrust_data out) i with
  | Some t, Some r, Some p, Some f => Some (t, r, p, f)
  | _, _, _, _ => None
  end.

(** The slow-burning configuration cut to five passes. *)
Definition brief_floats : Constants float :=
  {| REGRESSION_RATE_COEFFICIENT := 1e-20%float;
     OXIDIZER_FLUX_EXPONENT := 0.8%float;
     FUEL_DENSITY := 970%float;
     GRAIN_LENGTH := 1%float;
     INITIAL_PORT_RADIUS := 1%float;
     MAX_PORT_RADIUS := 2%float;
     OXIDIZER_MASS_FLOW_RATE := 0x1.921fb54442d18p+1%float;
     CHARACTERISTIC_VELOCITY := 1500%float;
     THROAT_AREA := 0.03%float;
     DELTA_T := 0.01%float;
     SIMULATION_DURATION := 0.05%float;
     SINGULARITY_THRESHOLD := 0.01%float |}.

(** The invariant of the specification on the constants, on floats. *)
Definition valid_floats (c : Constants float) : bool :=
  PrimFloat.ltb 0%float (REGRESSION_RATE_COEFFICIENT c)
  && PrimFloat.ltb 0%float (OXIDIZER_FLUX_EXPONENT c)
  && PrimFloat.ltb 0%float (FUEL_DENSITY c)
  && PrimFloat.ltb 0%float (GRAIN_LENGTH c)
  && PrimFloat.ltb 0%float (INITIAL_PORT_RADIUS c)
  && PrimFloat.ltb 0%float (MAX_PORT_RADIUS c)
  && PrimFloat.ltb 0%float (OXIDIZER_MASS_FLOW_RATE c)
  && PrimFloat.ltb 0%float (CHARACTERISTIC_VELOCITY c)
  && PrimFloat.ltb 0%float (THROAT_AREA c)
  && PrimFloat.ltb 0%float (DELTA_T c)
  && PrimFloat.ltb 0%float (SIMULATION_DURATION c)
  && PrimFloat.ltb 0%float (SINGULARITY_THRESHOLD c)
  && PrimFloat.ltb (INITIAL_PORT_RADIUS c) (MAX_PORT_RADIUS c).



(** The coefficient, the oxidizer flow and the time step, the constants
    that enter the update of the radius, are finite floats. *)
Definition finite_rates (c : Constants float) : bool :=
  PrimFloat.ltb (REGRESSION_RATE_COEFFICIENT c) infinity
  && PrimFloat.ltb (OXIDIZER_MASS_FLOW_RATE c) infinity
  && PrimFloat.ltb (DELTA_T c) infinity.

(** A power function that keeps the sign of a non-negative base: when
    [x ** y] is a float, for [0 <= x] and an exponent that is not a NaN, that
    float is not below zero (and so not a NaN).  [float_pow] of CPython is
    such a function: on a base [>= 0] it answers [1.0], a zero, [+oo] or the
    non-negative value of [pow] of the C library, and raises
    [ZeroDivisionError] or [OverflowError] otherwise. *)
Definition nonnegative_power (power : float -> float -> result float)
  : Prop :=
  forall x y v,
    PrimFloat.leb 0%float x = true ->
    PrimFloat.eqb y y = true ->
    power x y = Ok v ->
    PrimFloat.leb 0%float v = true.

(** A power function that answers the exponents [1] and [2] as well, with
    the values of a correctly rounded [pow]: [x] itself, and the rounded
    product [x * x] when it is finite. *)
Definition rounded_pow (x y : float) : result float :=
  if PrimFloat.eqb y 0%float then Ok 1%float
  else if PrimFloat.eqb x 1%float then Ok 1%float
  else if PrimFloat.eqb y 1%float then Ok x
  else if PrimFloat.eqb y 2%float
          && PrimFloat.ltb (PrimFloat.mul x x) infinity
       then Ok (PrimFloat.mul x x)
  else Raise (OutsideModel "pow of the C library").

(** A configuration whose port grows in binary64: a port of radius [1.0]
    fed with [pi] kg/s of oxidizer under a linear regression law, two passes
    of half a second. *)
Definition growing_floats : Constants float :=
  {| REGRESSION_RATE_COEFFICIENT := 0.5%float;
     OXIDIZER_FLUX_EXPONENT := 1%float;
     FUEL_DENSITY := 970%float;
     GRAIN_LENGTH := 1%float;
     INITIAL_PORT_RADIUS := 1%float;
     MAX_PORT_RADIUS := 2%float;
     OXIDIZER_MASS_FLOW_RATE := 0x1.921fb54442d18p+1%float;
     CHARACTERISTIC_VELOCITY := 1500%float;
     THROAT_AREA := 0.03%float;
     DELTA_T := 0.5%float;
     SIMULATION_DURATION := 1%float;
     SINGULARITY_THRESHOLD := 0.01%float |}.

(** [above mx ex z]: the float [z] is [+oo] or a positive finite float that
    is not below the positive float of mantissa [mx] and exponent [ex]. *)
Definition above (mx : positive) (ex : Z) (z : spec_float) : Prop :=
  z = S754_infinity false
  \/ exists m e, z = S754_finite false m e
                 /\ ((ex < e)%Z \/ (e = ex /\ (mx <= m)%positive)).

(* ------------------------------------------------------------------ *)
(** ** The presentation layer: [plot_results] and [main] *)

(** What [main] and [plot_results] do to the outside: a line on standard
    output, or a call on [matplotlib.pyplot].  [Print before value digits
    after] is [print(f"{before}{value:.{digits}f}{after}")]; the other
    constructors are the calls of the same name, with the arguments the
    source gives them. *)
Inductive effect (num : Type) : Type :=
| Print (before : string) (value : num) (digits : nat) (after : string)
| Figure (width height : nat)
| Subplot (rows columns index : nat)
| Plot (x y : list num) (label color : string)
| Xlabel (text : string)
| Ylabel (text : string)
| Title (text : string)
| Legend
| Grid (visible : bool)
| TightLayout
| Show.
Arguments Print {num} before value digits after.
Arguments Figure {num} width height.
Arguments Subplot {num} rows columns index.
Arguments Plot {num} x y label color.
Arguments Xlabel {num} text.
Arguments Ylabel {num} text.
Arguments Title {num} text.
Arguments Legend {num}.
Arguments Grid {num} visible.
Arguments TightLayout {num}.
Arguments Show {num}.

(** Lines 95-130, as the sequence of calls made when none of them raises. *)
Definition plot_results {num : Type}
           (time_data port_radius_data chamber_pressure_data thrust_data
            : list num)
  : list (effect num) :=
  [ Figure 12 8;
    Subplot 3 1 1;
    Plot time_data port_radius_data "Port Radius (m)" "blue";
    Xlabel "Time (s)";
    Ylabel "Port Radius (m)";
    Title "Surface Contour Evolution";
    Legend;
    Grid true;
    Subplot 3 1 2;
    Plot time_data chamber_pressure_data "Chamber Pressure (Pa)" "red";
    Xlabel "Time (s)";
    Ylabel "Pressure (Pa)";
    Title "Chamber Pressure Evolution";
    Legend;
    Grid true;
    Subplot 3 1 3;
    Plot time_data thrust_data "Thrust (N)" "green";
    Xlabel "Time (s)";
    Ylabel "Thrust (N)";
    Title "Thrust Evolution";
    Legend;
    Grid true;
    TightLayout;
    Show ].

(** Lines 132-148.  [results[:4]] and [results[4:]] are the first four and
    the last four components of the tuple; an exception of the simulation
    leaves [main] before anything is printed. *)
Definition main {num : Type} {A : Arith num} (c : Constants num)
           (budget : nat)
  : option (result (list (effect num))) :=
  match simulate_hybrid_rocket c budget with
  | None => None
  | Some (Raise e) => Some (Raise e)
  | Some (Ok results) =>
      let time_data := Returned.time_data results in
      let port_radius_data := Returned.port_radius_data results in
      let chamber_pressure_data := Returned.chamber_pressure_data results in
      let thrust_data := Returned.thrust_data results in
      let total_fuel_consumed := Returned.total_fuel_consumed results in
      let final_port_radius := Returned.final_port_radius results in
      let final_chamber_pressure :=
        Returned.final_chamber_pressure results in
      let final_thrust := Returned.final_thrust results in
      Some (Ok ([ Print "Simulation completed. Total fuel consumed: "
                        total_fuel_consumed 2 " kg";
                  Print "Final port radius: " final_port_radius 3 " m";
                  Print "Final chamber pressure: "
                        final_chamber_pressure 2 " Pa";
                  Print "Final thrust: " final_thrust 2 " N" ]
                ++ plot_results time_data port_radius_data
                                chamber_pressure_data thrust_data))
  end.

(** The fuel consumed over passes with the fuel flow rates [fuels]: the
    accumulation of line 81, from [0]. *)
Definition consumed {num : Type} {A : Arith num} (c : Constants num)
           (fuels : list num) : num :=
  fold_left (fun total fuel => add total (mul fuel (DELTA_T c))) fuels zero.


(** The constants [c] with the throat area replaced by [area]. *)
Definition with_throat_area {num : Type} (area : num) (c : Constants num)
  : Constants num :=
  {| REGRESSION_RATE_COEFFICIENT := REGRESSION_RATE_COEFFICIENT c;
     OXIDIZER_FLUX_EXPONENT := OXIDIZER_FLUX_EXPONENT c;
     FUEL_DENSITY := FUEL_DENSITY c;
     GRAIN_LENGTH := GRAIN_LENGTH c;
     INITIAL_PORT_RADIUS := INITIAL_PORT_RADIUS c;
     MAX_PORT_RADIUS := MAX_PORT_RADIUS c;
     OXIDIZER_MASS_FLOW_RATE := OXIDIZER_MASS_FLOW_RATE c;
     CHARACTERISTIC_VELOCITY := CHARACTERISTIC_VELOCITY c;
     THROAT_AREA := area;
     DELTA_T := DELTA_T c;
     SIMULATION_DURATION := SIMULATION_DURATION c;
     SINGULARITY_THRESHOLD := SINGULARITY_THRESHOLD c |}.

(* ------------------------------------------------------------------ *)
(** ** Control flow: facts that hold in every arithmetic *)

Lemma bind_Ok {X Y : Type} (m : result X) (k : X -> result Y) (y : Y) :
  bind m k = Ok y -> exists x, m = Ok x /\ k x = Ok y.
Proof.
  destruct m as [x|e]; simpl; intros H; [now exists x | discriminate].
Qed.

Section Control.
Context {num : Type} {A : Arith num}.
Variable c : Constants num.

(** A pass that completes has computed, in this order, the square of the
    radius, the flux, the regression rate and the chamber pressure, and
    leaves the locals below. *)
Lemma loop_body_Ok (l l' : Locals num) :
  loop_body c l = Ok l' ->
  exists r2 flux rate pressure,
    pow (port_radius l) two = Ok r2
    /\ div (OXIDIZER_MASS_FLOW_RATE c) (mul pi r2) = Ok flux
    /\ calculate_regression_rate c (port_radius l) flux = Ok rate
    /\ let radius := add (port_radius l) (mul rate (DELTA_T c)) in
       let fuel := calculate_fuel_flow_rate c radius rate in
       let total := add (OXIDIZER_MASS_FLOW_RATE c) fuel in
       calculate_chamber_pressure c total = Ok pressure
       /\ l' = {| time := add (time l) (DELTA_T c);
                  port_radius := radius;
                  total_fuel_consumed :=
                    add (total_fuel_consumed l) (mul fuel (DELTA_T c));
                  time_data := time_data l ++ [time l];
                  port_radius_data := port_radius_data l ++ [radius];
                  chamber_pressure_data :=
                    chamber_pressure_data l ++ [pressure];
                  thrust_data :=
                    thrust_data l ++ [calculate_thrust c total];
                  oxidizer_flux := Some flux;
                  regression_rate := Some rate;
                  fuel_flow_rate := Some fuel;
                  total_mass_flow_rate := Some total;
                  chamber_pressure := Some pressure;
                  thrust := Some (calculate_thrust c total) |}.
Proof.
  unfold loop_body. intros H.
  apply bind_Ok in H as (r2 & Hr2 & H).
  apply bind_Ok in H as (flux & Hflux & H).
  apply bind_Ok in H as (rate & Hrate & H).
  apply bind_Ok in H as (pressure & Hp & H).
  exists r2, flux, rate, pressure. cbv zeta.
  repeat split; try assumption. now inversion H.
Qed.



(** The loop ends only where the test fails, and through passes. *)
Lemma while_loop_History (b : nat) :
  forall h l l_end,
    History c h l ->
    while_loop c b l = Some (Ok l_end) ->
    exists h', History c h' l_end /\ loop_test c l_end = false.
Proof.
  induction b as [|b IH]; intros h l l_end Hh H; [discriminate|].
  simpl in H. destruct (loop_test c l) eqn:Et.
  - destruct (loop_body c l) as [l1|e] eqn:Eb; [|discriminate].
    eapply IH; [|exact H]. eapply History_pass; eauto.
  - inversion H; subst. eauto.
Qed.

Lemma run_History (b : nat) (out : Returned.t num) :
  simulate_hybrid_rocket c b = Some (Ok out) ->
  exists h l,
    History c h l /\ loop_test c l = false /\ return_tuple l = Ok out.
Proof.
  unfold simulate_hybrid_rocket. intros H.
  destruct (while_loop c b (initial_locals c)) as [[l|e]|] eqn:E;
    try discriminate.
  destruct (while_loop_History _ _ _ _ (History_start c) E) as (h & Hh & Ht).
  exists h, l. repeat split; try assumption. now inversion H.
Qed.

(** What a returned tuple holds. *)
Lemma return_tuple_Ok (l : Locals num) (out : Returned.t num) :
  return_tuple l = Ok out ->
  Returned.time_data out = time_data l
  /\ Returned.port_radius_data out = port_radius_data l
  /\ Returned.chamber_pressure_data out = chamber_pressure_data l
  /\ Returned.thrust_data out = thrust_data l
  /\ Returned.total_fuel_consumed out = total_fuel_consumed l
  /\ Returned.final_port_radius out = port_radius l
  /\ chamber_pressure l = Some (Returned.final_chamber_pressure out)
  /\ thrust l = Some (Returned.final_thrust out).
Proof.
  unfold return_tuple.
  destruct (chamber_pressure l), (thrust l); try discriminate.
  intros H; inversion H; subst; simpl. repeat split.
Qed.

(** The series are the passes, read off in order. *)
Lemma History_series (h : list (Locals num * Locals num)) (l : Locals num) :
  History c h l ->
  time_data l = map (fun p => time (fst p)) h
  /\ port_radius_data l = map (fun p => port_radius (snd p)) h
  /\ map Some (chamber_pressure_data l)
     = map (fun p => chamber_pressure (snd p)) h
  /\ map Some (thrust_data l) = map (fun p => thrust (snd p)) h.
Proof.
  induction 1 as [|h l l' Hh (IH1 & IH2 & IH3 & IH4) Ht Hb].
  - repeat split.
  - apply loop_body_Ok in Hb
      as (r2 & flux & rate & pressure & _ & _ & _ & _ & ->).
    simpl. rewrite !map_app. simpl.
    rewrite <- IH1, <- IH2, <- IH3, <- IH4. repeat split.
Qed.

(** The locals a history ends in are those after its last pass. *)
Lemma History_end (h : list (Locals num * Locals num)) (l : Locals num) :
  History c h l ->
  nth_error (initial_locals c :: map snd h) (length h) = Some l.
Proof.
  induction 1 as [|h l l' Hh IH Ht Hb]; [reflexivity|].
  rewrite length_app, map_app. simpl length.
  replace (length h + 1) with (S (length h)) by lia. simpl.
  rewrite nth_error_app2 by (rewrite length_map; lia).
  rewrite length_map, Nat.sub_diag. reflexivity.
Qed.

(** Every pass of a history was let in by the test, completed, and started
    from the locals the pass before it left (the initial ones for the
    first). *)
Lemma History_nth (h : list (Locals num * Locals num)) (l : Locals num) :
  History c h l ->
  forall i a b,
    nth_error h i = Some (a, b) ->
    loop_test c a = true
    /\ loop_body c a = Ok b
    /\ nth_error (initial_locals c :: map snd h) i = Some a.
Proof.
  induction 1 as [|h l l' Hh IH Ht Hb]; intros i a b Hi.
  - destruct i; discriminate.
  - destruct (Nat.lt_ge_cases i (length h)) as [Hlt|Hge].
    + rewrite nth_error_app1 in Hi by assumption.
      destruct (IH _ _ _ Hi) as (H1 & H2 & H3).
      repeat split; try assumption.
      rewrite map_app, app_comm_cons.
      rewrite nth_error_app1 by (simpl; rewrite length_map; lia).
      assumption.
    + rewrite nth_error_app2 in Hi by assumption.
      destruct (i - length h) as [|k] eqn:Ek;
        [|destruct k; discriminate].
      simpl in Hi. inversion Hi; subst a b.
      assert (i = length h) by lia. subst i.
      repeat split; try assumption.
      rewrite map_app, app_comm_cons.
      rewrite nth_error_app1 by (simpl; rewrite length_map; lia).
      now apply History_end.
Qed.

(** Consecutive passes share their middle locals. *)
Lemma History_consecutive
      (h : list (Locals num * Locals num)) (l : Locals num) :
  History c h l ->
  forall i a b a' b',
    nth_error h i = Some (a, b) ->
    nth_error h (S i) = Some (a', b') ->
    a' = b.
Proof.
  intros Hh i a b a' b' Hi HSi.
  destruct (History_nth _ _ Hh _ _ _ HSi) as (_ & _ & H).
  simpl in H. rewrite nth_error_map, Hi in H. simpl in H. congruence.
Qed.

End Control.

Section Series.
Context {num : Type} {A : Arith num}.
Variable c : Constants num.

(** Each series has one entry per pass. *)
Lemma History_lengths
      (h : list (Locals num * Locals num)) (l : Locals num) :
  History c h l ->
  length (time_data l) = length h
  /\ length (port_radius_data l) = length h
  /\ length (chamber_pressure_data l) = length h
  /\ length (thrust_data l) = length h.
Proof.
  intros Hh. destruct (History_series c h l Hh) as (H1 & H2 & H3 & H4).
  rewrite H1, H2.
  rewrite <- (length_map Some (chamber_pressure_data l)), H3.
  rewrite <- (length_map Some (thrust_data l)), H4.
  rewrite !length_map. repeat split.
Qed.

Lemma map_Some_nth {X : Type} (xs : list X) (ys : list (option X)) i x :
  map Some xs = ys -> nth_error ys i = Some (Some x) ->
  nth_error xs i = Some x.
Proof.
  intros <-. rewrite nth_error_map.
  destruct (nth_error xs i); simpl; congruence.
Qed.

(** Pass [i] wrote entry [i] of every series: the time before the pass,
    and the radius, pressure and thrust after it. *)
Lemma History_row
      (h : list (Locals num * Locals num)) (l : Locals num) :
  History c h l ->
  forall i a b,
    nth_error h i = Some (a, b) ->
    exists p f,
      chamber_pressure b = Some p
      /\ thrust b = Some f
      /\ nth_error (time_data l) i = Some (time a)
      /\ nth_error (port_radius_data l) i = Some (port_radius b)
      /\ nth_error (chamber_pressure_data l) i = Some p
      /\ nth_error (thrust_data l) i = Some f.
Proof.
  intros Hh i a b Hi.
  destruct (History_series c h l Hh) as (H1 & H2 & H3 & H4).
  destruct (History_nth c h l Hh _ _ _ Hi) as (_ & Hb & _).
  apply loop_body_Ok in Hb
    as (r2 & flux & rate & pressure & _ & _ & _ & _ & Hb).
  assert (Hp : chamber_pressure b = Some pressure) by now rewrite Hb.
  assert (Hf : exists f, thrust b = Some f) by (rewrite Hb; simpl; eauto).
  destruct Hf as (f & Hf). exists pressure, f.
  rewrite H1, H2, !nth_error_map, Hi. simpl. repeat split; try assumption.
  - eapply map_Some_nth; [exact H3|].
    rewrite nth_error_map, Hi. simpl. now rewrite Hp.
  - eapply map_Some_nth; [exact H4|].
    rewrite nth_error_map, Hi. simpl. now rewrite Hf.
Qed.

(** Every index of a series is the index of a pass. *)
Lemma History_pass_at
      (h : list (Locals num * Locals num)) (l : Locals num) (i : nat) :
  History c h l -> i < length h ->
  exists a b, nth_error h i = Some (a, b).
Proof.
  intros _ Hi. destruct (nth_error h i) as [[a b]|] eqn:E; [eauto|].
  apply nth_error_None in E. lia.
Qed.

(** No pass: the test fails on entry, the loop leaves the locals as they
    were, and the [return] reads [chamber_pressure] before any
    assignment. *)
Lemma no_pass_raises (b : nat) :
  loop_test c (initial_locals c) = false ->
  while_loop c (S b) (initial_locals c) = Some (Ok (initial_locals c))
  /\ simulate_hybrid_rocket c (S b)
     = Some (Raise (UnboundLocalError "chamber_pressure")).
Proof.
  intros H. unfold simulate_hybrid_rocket. simpl. rewrite H. split; reflexivity.
Qed.

(** A run that returns has made at least one pass. *)
Lemma returned_nonempty (b : nat) (out : Returned.t num) :
  simulate_hybrid_rocket c b = Some (Ok out) ->
  Returned.time_data out <> [].
Proof.
  intros H. destruct (run_History c b out H) as (h & l & Hh & _ & Hr).
  apply return_tuple_Ok in Hr as (Ht & _ & _ & _ & _ & _ & Hp & _).
  rewrite Ht. destruct Hh as [|h l l' Hh Htest Hb].
  - discriminate.
  - apply loop_body_Ok in Hb as (? & ? & ? & ? & _ & _ & _ & _ & ->).
    simpl. intros E. now apply app_eq_nil in E as [_ E].
Qed.

(** A returned tuple, read through the history of its run. *)
Lemma run_rows (b : nat) (out : Returned.t num) :
  simulate_hybrid_rocket c b = Some (Ok out) ->
  exists h l,
    History c h l
    /\ loop_test c l = false
    /\ Returned.final_port_radius out = port_radius l
    /\ length (Returned.time_data out) = length h
    /\ length (Returned.port_radius_data out) = length h
    /\ length (Returned.chamber_pressure_data out) = length h
    /\ length (Returned.thrust_data out) = length h
    /\ forall i a b',
        nth_error h i = Some (a, b') ->
        exists p f,
          chamber_pressure b' = Some p
          /\ thrust b' = Some f
          /\ row out i = Some (time a, port_radius b', p, f).
Proof.
  intros H. destruct (run_History c b out H) as (h & l & Hh & Ht & Hr).
  apply return_tuple_Ok in Hr as (E1 & E2 & E3 & E4 & _ & E6 & _ & _).
  destruct (History_lengths h l Hh) as (L1 & L2 & L3 & L4).
  exists h, l. unfold row. rewrite E1, E2, E3, E4.
  repeat split; try assumption.
  intros i a b' Hi.
  destruct (History_row h l Hh i a b' Hi)
    as (p & f & Hp & Hf & R1 & R2 & R3 & R4).
  exists p, f. now rewrite R1, R2, R3, R4.
Qed.

Lemma row_Some (out : Returned.t num) (i : nat) t r p f :
  row out i = Some (t, r, p, f) ->
  nth_error (Returned.time_data out) i = Some t
  /\ nth_error (Returned.port_radius_data out) i = Some r
  /\ nth_error (Returned.chamber_pressure_data out) i = Some p
  /\ nth_error (Returned.thrust_data out) i = Some f.
Proof.
  unfold row.
  destruct (nth_error (Returned.time_data out) i),
    (nth_error (Returned.port_radius_data out) i),
    (nth_error (Returned.chamber_pressure_data out) i),
    (nth_error (Returned.thrust_data out) i); try discriminate.
  intros H; inversion H; subst. repeat split.
Qed.

End Series.

Section Clock.
Context {num : Type} {A : Arith num}.
Variable c : Constants num.

(** After the passes of a history the time is the clock at their number. *)
Lemma History_clock (h : list (Locals num * Locals num)) (l : Locals num) :
  History c h l -> time l = clock c (length h).
Proof.
  induction 1 as [|h l l' Hh IH Ht Hb]; [reflexivity|].
  apply loop_body_Ok in Hb as (? & ? & ? & ? & _ & _ & _ & _ & ->).
  rewrite length_app, Nat.add_comm. simpl. now rewrite IH.
Qed.

(** Pass [i] starts at the clock at [i]. *)
Lemma History_clock_nth (h : list (Locals num * Locals num)) (l : Locals num) :
  History c h l ->
  forall i a b, nth_error h i = Some (a, b) -> time a = clock c i.
Proof.
  induction 1 as [|h l l' Hh IH Ht Hb]; intros i a b Hi.
  - destruct i; discriminate.
  - destruct (Nat.lt_ge_cases i (length h)) as [Hlt|Hge].
    + rewrite nth_error_app1 in Hi by assumption. eauto.
    + rewrite nth_error_app2 in Hi by assumption.
      destruct (i - length h) as [|k] eqn:Ek; [|destruct k; discriminate].
      simpl in Hi. inversion Hi; subst a b.
      assert (i = length h) by lia. subst i.
      now apply History_clock.
Qed.

(** Entry [i] of the time series is the clock at [i]; the test on the time
    held at every recorded index, and the loop test failed on the clock at
    the length of the series and the final port radius. *)
Lemma run_clock (b : nat) (out : Returned.t num) :
  simulate_hybrid_rocket c b = Some (Ok out) ->
  (forall i, i < length (Returned.time_data out) ->
             nth_error (Returned.time_data out) i = Some (clock c i)
             /\ lt (clock c i) (SIMULATION_DURATION c) = true)
  /\ lt (clock c (length (Returned.time_data out))) (SIMULATION_DURATION c)
     && lt (Returned.final_port_radius out) (MAX_PORT_RADIUS c) = false.
Proof.
  intros H.
  destruct (run_rows c b out H)
    as (h & l & Hh & Htest & Ef & L1 & _ & _ & _ & Hrow).
  split.
  - intros i Hi. rewrite L1 in Hi.
    destruct (History_pass_at c h l i Hh Hi) as (a & b' & Hab).
    destruct (Hrow _ _ _ Hab) as (p & f & _ & _ & Hr).
    apply row_Some in Hr as (Rt & _).
    destruct (History_nth c h l Hh _ _ _ Hab) as (Ht & _ & _).
    rewrite <- (History_clock_nth h l Hh _ _ _ Hab).
    split; [exact Rt|].
    unfold loop_test in Ht. now apply andb_true_iff in Ht as [Ht _].
  - rewrite L1, Ef, <- (History_clock h l Hh). exact Htest.
Qed.
End Clock.

(* ------------------------------------------------------------------ *)
(** ** Properties of the specification that hold in every arithmetic *)

Section Structural.
Context {num : Type} {A : Arith num}.
Variable c : Constants num.

(** C2.  In every pass the fuel flow rate is computed from the radius
    after the forward-Euler update, [r + rate * dt], and from the
    regression rate [rate] that was computed at the radius [r] and the flux
    before the update: it is
    [FUEL_DENSITY * (2 * pi * (r + rate * dt) * GRAIN_LENGTH) * rate]. *)
Theorem fuel_flow_uses_updated_radius (l l' : Locals num) :
  loop_body c l = Ok l' ->
  exists r2 flux rate,
    pow (port_radius l) two = Ok r2
    /\ div (OXIDIZER_MASS_FLOW_RATE c) (mul pi r2) = Ok flux
    /\ calculate_regression_rate c (port_radius l) flux = Ok rate
    /\ regression_rate l' = Some rate
    /\ port_radius l' = add (port_radius l) (mul rate (DELTA_T c))
    /\ fuel_flow_rate l'
       = Some (calculate_fuel_flow_rate c (port_radius l') rate)
    /\ calculate_fuel_flow_rate c (port_radius l') rate
       = mul (mul (FUEL_DENSITY c)
                  (mul (mul (mul two pi)
                            (add (port_radius l) (mul rate (DELTA_T c))))
                       (GRAIN_LENGTH c)))
             rate.
Proof.
  intros H.
  apply loop_body_Ok in H
    as (r2 & flux & rate & pressure & H1 & H2 & H3 & _ & ->).
  exists r2, flux, rate. simpl. repeat split; assumption.
Qed.

(** C3.  For every port radius and every flux the guarded regression rate
    is the unguarded formula [coefficient * flux ** exponent]: the guard on
    the singularity threshold changes nothing. *)
Theorem regression_rate_guard_is_no_op (r flux : num) :
  calculate_regression_rate c r flux = regression_rate_formula c flux
  /\ regression_rate_formula c flux
     = (p <- pow flux (OXIDIZER_FLUX_EXPONENT c) ;;
        Ok (mul (REGRESSION_RATE_COEFFICIENT c) p)).
Proof.
  split; [|reflexivity].
  unfold calculate_regression_rate, regression_rate_formula.
  now destruct (lt r (SINGULARITY_THRESHOLD c)).
Qed.

(** At every recorded index the chamber pressure is the thrust at that
    index divided by the throat area, with the division of the program: both
    come from one total mass flow rate. *)
Lemma pressure_from_thrust
        (b : nat) (out : Returned.t num) (i : nat) (f : num) :
  simulate_hybrid_rocket c b = Some (Ok out) ->
  nth_error (Returned.thrust_data out) i = Some f ->
  exists p,
    nth_error (Returned.chamber_pressure_data out) i = Some p
    /\ div f (THROAT_AREA c) = Ok p.
Proof.
  intros H Hf.
  destruct (run_rows c b out H)
    as (h & l & Hh & _ & _ & _ & _ & _ & L4 & Hrow).
  assert (Hi : i < length h).
  { rewrite <- L4. apply nth_error_Some. congruence. }
  destruct (History_pass_at c h l i Hh Hi) as (a & b' & Hab).
  destruct (Hrow _ _ _ Hab) as (p & f' & Hp & Hf' & Hr).
  apply row_Some in Hr as (_ & _ & Rp & Rf).
  assert (f' = f) by congruence. subst f'.
  exists p. split; [assumption|].
  destruct (History_nth c h l Hh _ _ _ Hab) as (_ & Hb & _).
  apply loop_body_Ok in Hb
    as (r2 & flux & rate & pressure & _ & _ & _ & Hcp & Hb).
  rewrite Hb in Hp, Hf'. simpl in Hp, Hf'.
  inversion Hp; inversion Hf'; subst. exact Hcp.
Qed.


(** C8.  The four series of a run have one length, and index [i] of every
    series was written by pass [i] of the loop: the time at which the pass
    started, and the port radius, chamber pressure and thrust it
    computed. *)
Theorem series_aligned (b : nat) (out : Returned.t num) :
  simulate_hybrid_rocket c b = Some (Ok out) ->
  length (Returned.port_radius_data out)
  = length (Returned.time_data out)
  /\ length (Returned.chamber_pressure_data out)
     = length (Returned.time_data out)
  /\ length (Returned.thrust_data out) = length (Returned.time_data out)
  /\ exists h l,
      History c h l
      /\ length h = length (Returned.time_data out)
      /\ forall i,
          i < length (Returned.time_data out) ->
          exists a b' p f,
            nth_error h i = Some (a, b')
            /\ loop_body c a = Ok b'
            /\ chamber_pressure b' = Some p
            /\ thrust b' = Some f
            /\ row out i = Some (time a, port_radius b', p, f).
Proof.
  intros H.
  destruct (run_rows c b out H)
    as (h & l & Hh & _ & _ & L1 & L2 & L3 & L4 & Hrow).
  rewrite L1, L2, L3, L4. repeat split.
  exists h, l. repeat split; try assumption.
  intros i Hi.
  destruct (History_pass_at c h l i Hh Hi) as (a & b' & Hab).
  destruct (Hrow _ _ _ Hab) as (p & f & Hp & Hf & Hr).
  destruct (History_nth c h l Hh _ _ _ Hab) as (_ & Hb & _).
  exists a, b', p, f. repeat split; assumption.
Qed.

(** Every entry of the port-radius series but the last passed the test
    [port_radius < MAX_PORT_RADIUS] of the next pass.  The last entry is the
    final port radius, on which the loop test failed. *)
Lemma radius_entries_tested (b : nat) (out : Returned.t num) :
  simulate_hybrid_rocket c b = Some (Ok out) ->
  (forall i r,
      nth_error (Returned.port_radius_data out) i = Some r ->
      S i < length (Returned.port_radius_data out) ->
      lt r (MAX_PORT_RADIUS c) = true)
  /\ nth_error (Returned.port_radius_data out)
               (length (Returned.port_radius_data out) - 1)
     = Some (Returned.final_port_radius out).
Proof.
  intros H.
  destruct (run_rows c b out H)
    as (h & l & Hh & _ & Ef & L1 & L2 & _ & _ & Hrow).
  split.
  - intros i r Hi HS. rewrite L2 in HS.
    destruct (History_pass_at c h l i Hh ltac:(lia)) as (a & b1 & Hab).
    destruct (History_pass_at c h l (S i) Hh HS) as (a' & b2 & Hab').
    assert (a' = b1) by (eapply History_consecutive; eauto). subst a'.
    destruct (Hrow _ _ _ Hab) as (p & f & _ & _ & Hr).
    apply row_Some in Hr as (_ & Rr & _).
    assert (r = port_radius b1) by congruence. subst r.
    destruct (History_nth c h l Hh _ _ _ Hab') as (Ht & _ & _).
    unfold loop_test in Ht. now apply andb_true_iff in Ht as [_ Ht].
  - assert (Hne := returned_nonempty c b out H).
    assert (H0 : 0 < length h).
    { rewrite <- L1. destruct (Returned.time_data out);
        [congruence | simpl; lia]. }
    rewrite L2, Ef.
    destruct (History_pass_at c h l (length h - 1) Hh ltac:(lia))
      as (a & b' & Hab).
    destruct (Hrow _ _ _ Hab) as (p & f & _ & _ & Hr).
    apply row_Some in Hr as (_ & Rr & _). rewrite Rr. f_equal. f_equal.
    assert (He := History_end c h l Hh).
    replace (length h) with (S (length h - 1)) in He at 1 by lia.
    simpl in He. rewrite nth_error_map, Hab in He. simpl in He. congruence.
Qed.

End Structural.

(* ------------------------------------------------------------------ *)
(** ** Runs in binary64 *)

Lemma brief_run_returns :
  exists out, simulate_hybrid_rocket brief_floats 10 = Some (Ok out).
Proof. vm_compute. eexists. reflexivity. Qed.

Lemma brief_first_pass :
  exists l',
    loop_body brief_floats (initial_locals brief_floats) = Ok l'.
Proof. vm_compute. eexists. reflexivity. Qed.

(** C1.  With [MAX_PORT_RADIUS] equal to [INITIAL_PORT_RADIUS] the loop makes
    no pass and leaves the initial locals, with every series empty and the
    port radius unchanged; the [return] then raises [UnboundLocalError],
    because [chamber_pressure] was never assigned. *)
Theorem degenerate_run_raises (b : nat) :
  while_loop degenerate_floats (S b) (initial_locals degenerate_floats)
  = Some (Ok (initial_locals degenerate_floats))
  /\ time_data (initial_locals degenerate_floats) = []
  /\ port_radius (initial_locals degenerate_floats)
     = INITIAL_PORT_RADIUS degenerate_floats
  /\ simulate_hybrid_rocket degenerate_floats (S b)
     = Some (Raise (UnboundLocalError "chamber_pressure")).
Proof.
  destruct (no_pass_raises degenerate_floats b) as [H1 H2];
    [reflexivity|].
  repeat split; assumption.
Qed.

Lemma fuel_flow_uses_updated_radius_witness :
  exists l' rate,
    loop_body brief_floats (initial_locals brief_floats) = Ok l'
    /\ regression_rate l' = Some rate
    /\ port_radius l'
       = PrimFloat.add (INITIAL_PORT_RADIUS brief_floats)
                       (PrimFloat.mul rate (DELTA_T brief_floats))
    /\ fuel_flow_rate l'
       = Some (calculate_fuel_flow_rate brief_floats (port_radius l') rate).
Proof.
  destruct brief_first_pass as (l' & H).
  destruct (fuel_flow_uses_updated_radius brief_floats _ _ H)
    as (r2 & flux & rate & _ & _ & _ & H1 & H2 & H3 & _).
  exists l', rate. repeat split; assumption.
Defined.

Lemma series_aligned_witness :
  exists out,
    simulate_hybrid_rocket brief_floats 10 = Some (Ok out)
    /\ length (Returned.port_radius_data out)
       = length (Returned.time_data out)
    /\ length (Returned.chamber_pressure_data out)
       = length (Returned.time_data out)
    /\ length (Returned.thrust_data out) = length (Returned.time_data out).
Proof.
  destruct brief_run_returns as (out & H).
  destruct (series_aligned brief_floats 10 out H) as (H1 & H2 & H3 & _).
  exists out. repeat split; assumption.
Defined.

(** C4, as stated, fails in binary64: in the slow-burning configuration,
    whose constants are valid, the first thrust divided by the first chamber
    pressure is [0.030000000000000002], and the throat area is [0.03]. *)
Lemma quotient_is_not_throat_area :
  valid_floats slow_burn_floats = true
  /\ match simulate_hybrid_rocket slow_burn_floats 2000 with
     | Some (Ok out) =>
         nth_error (Returned.thrust_data out) 0
         = Some 4712.3889803846896%float
         /\ nth_error (Returned.chamber_pressure_data out) 0
            = Some 157079.63267948964%float
         /\ binary64_div 4712.3889803846896%float 157079.63267948964%float
            = Ok 0.030000000000000002%float
         /\ PrimFloat.eqb 0.030000000000000002%float
                          (THROAT_AREA slow_burn_floats) = false
     | _ => False
     end.
Proof. vm_compute. repeat split; reflexivity. Qed.



(** One thousand additions of [0.01] stay below [10.0]; one more does
    not. *)
Lemma centisecond_clock_below_duration :
  forallb (fun k => PrimFloat.ltb (centisecond_clock k) 10%float)
          (seq 0 1001) = true
  /\ PrimFloat.ltb (centisecond_clock 1001) 10%float = false
  /\ centisecond_clock 6 = 0.060000000000000005%float.
Proof. vm_compute. repeat split; reflexivity. Qed.

Lemma clock_centisecond (power : float -> float -> result float)
      (c : Constants float) (k : nat) :
  DELTA_T c = 0.01%float ->
  clock (A := binary64_with power) c k = centisecond_clock k.
Proof. intros E. unfold clock, centisecond_clock. simpl. now rewrite E. Qed.

(** In binary64, whatever the power function, a run with the time step
    [0.01] and the duration [10.0] of the source that returns has recorded
    1001 entries, unless the test on the port radius stopped it before; and
    entry 6 of its time series, when there is one, is
    [0.060000000000000005]. *)
Theorem centisecond_runs
        (power : float -> float -> result float)
        (c : Constants float) (b : nat) (out : Returned.t float) :
  DELTA_T c = 0.01%float ->
  SIMULATION_DURATION c = 10%float ->
  simulate_hybrid_rocket (A := binary64_with power) c b = Some (Ok out) ->
  (length (Returned.time_data out) = 1001
   \/ length (Returned.time_data out) < 1001
      /\ PrimFloat.ltb (Returned.final_port_radius out) (MAX_PORT_RADIUS c)
         = false)
  /\ (6 < length (Returned.time_data out) ->
      nth_error (Returned.time_data out) 6
      = Some 0.060000000000000005%float).
Proof.
  intros Edt ED H.
  destruct centisecond_clock_below_duration as (Hall & H1001 & H6).
  destruct (run_clock (A := binary64_with power) c b out H) as (Hi & Hend).
  rewrite ED in *.
  assert (Hle : length (Returned.time_data out) <= 1001).
  { destruct (Nat.le_gt_cases (length (Returned.time_data out)) 1001)
      as [Hle|Hgt]; [exact Hle|].
    destruct (Hi 1001 Hgt) as (_ & Ht).
    rewrite (clock_centisecond power c 1001 Edt) in Ht. simpl in Ht.
    congruence. }
  split.
  - destruct (Nat.eq_dec (length (Returned.time_data out)) 1001)
      as [E|Hne]; [now left | right].
    split; [lia|].
    rewrite (clock_centisecond power c _ Edt) in Hend.
    assert (Hin : In (length (Returned.time_data out)) (seq 0 1001))
      by (apply in_seq; lia).
    rewrite forallb_forall in Hall. specialize (Hall _ Hin).
    simpl in Hend. simpl in Hall. rewrite Hall in Hend. exact Hend.
  - intros H7. destruct (Hi 6 H7) as (Ht & _).
    now rewrite Ht, (clock_centisecond power c 6 Edt), H6.
Qed.

Lemma slow_burn_run_returns :
  exists out, simulate_hybrid_rocket slow_burn_floats 2000 = Some (Ok out).
Proof. vm_compute. eexists. reflexivity. Qed.

Lemma centisecond_runs_witness :
  exists out,
    simulate_hybrid_rocket slow_burn_floats 2000 = Some (Ok out)
    /\ (length (Returned.time_data out) = 1001
        \/ length (Returned.time_data out) < 1001
           /\ PrimFloat.ltb (Returned.final_port_radius out)
                            (MAX_PORT_RADIUS slow_burn_floats) = false)
    /\ (6 < length (Returned.time_data out) ->
        nth_error (Returned.time_data out) 6
        = Some 0.060000000000000005%float).
Proof.
  destruct slow_burn_run_returns as (out & H).
  exists out. split; [exact H|].
  exact (centisecond_runs binary64_pow slow_burn_floats 2000 out
                          eq_refl eq_refl H).
Defined.

(* ------------------------------------------------------------------ *)
(** ** Runs in exact arithmetic *)

Lemma Rlt_bool_true (x y : R) : Rlt_bool x y = true <-> (x < y)%R.
Proof.
  unfold Rlt_bool. destruct (Rlt_dec x y); split; intros; try discriminate;
    try reflexivity; try assumption; contradiction.
Qed.

Lemma Rlt_bool_false (x y : R) : Rlt_bool x y = false <-> (y <= x)%R.
Proof.
  unfold Rlt_bool. destruct (Rlt_dec x y); split; intros; try discriminate;
    try reflexivity; lra.
Qed.

Lemma exact_div_Ok (x y : R) : y <> 0%R -> exact_div x y = Ok (x / y)%R.
Proof.
  intros H. unfold exact_div. destruct (Req_dec_T y 0); [contradiction|].
  reflexivity.
Qed.

Lemma exact_pow_Ok (x y : R) :
  (0 < x)%R -> y <> 0%R -> exact_pow x y = Ok (Rpower x y).
Proof.
  intros Hx Hy. unfold exact_pow.
  destruct (Req_dec_T y 0); [contradiction|].
  destruct (Rlt_dec 0 x); [reflexivity | contradiction].
Qed.

Lemma Rpower_pos (x y : R) : (0 < Rpower x y)%R.
Proof. unfold Rpower. apply exp_pos. Qed.


Lemma ceiling_spec (x : R) :
  (IZR (ceiling x) - 1 < x <= IZR (ceiling x))%R.
Proof.
  unfold ceiling. rewrite opp_IZR.
  destruct (base_Int_part (- x)) as [H1 H2]. lra.
Qed.

Section Exact.
Variable c : Constants R.
Hypothesis Hvalid : valid c.

Local Open Scope R_scope.

Lemma flux_at_pos (r : R) : 0 < flux_at c r.
Proof.
  unfold flux_at. destruct Hvalid as (_ & _ & _ & _ & _ & _ & H & _).
  apply Rdiv_lt_0_compat; [assumption|].
  apply Rmult_lt_0_compat; [apply PI_RGT_0 | apply Rpower_pos].
Qed.

Lemma rate_at_pos (r : R) : 0 < rate_at c r.
Proof.
  unfold rate_at. destruct Hvalid as (H & _).
  apply Rmult_lt_0_compat; [assumption | apply Rpower_pos].
Qed.

Lemma radius_after_grows (r : R) : r < radius_after c r.
Proof.
  unfold radius_after.
  destruct Hvalid as (_ & _ & _ & _ & _ & _ & _ & _ & _ & Hdt & _).
  pose proof (Rmult_lt_0_compat _ _ (rate_at_pos r) Hdt). lra.
Qed.

Lemma radius_before_pos (k : nat) : 0 < radius_before c k.
Proof.
  unfold radius_before. induction k as [|k IH]; simpl.
  - now destruct Hvalid as (_ & _ & _ & _ & H & _).
  - pose proof (radius_after_grows (Nat.iter k (radius_after c)
                                             (INITIAL_PORT_RADIUS c))).
    lra.
Qed.

Lemma total_flow_at_pos (r : R) : 0 < r -> 0 < total_flow_at c r.
Proof.
  intros Hr. unfold total_flow_at, fuel_flow_at.
  destruct Hvalid as (_ & _ & Hrho & HL & _ & _ & Hox & _).
  pose proof (radius_after_grows r). pose proof (rate_at_pos r).
  pose proof PI_RGT_0.
  assert (0 < FUEL_DENSITY c * (2 * PI * radius_after c r * GRAIN_LENGTH c)
              * rate_at c r).
  { apply Rmult_lt_0_compat; [|assumption].
    apply Rmult_lt_0_compat; [assumption|].
    apply Rmult_lt_0_compat; [|assumption].
    apply Rmult_lt_0_compat; lra. }
  lra.
Qed.

(** A pass from a positive radius completes, with the closed-form values. *)
Lemma exact_pass (l : Locals R) :
  0 < port_radius l ->
  exists l',
    loop_body c l = Ok l'
    /\ time l' = time l + DELTA_T c
    /\ port_radius l' = radius_after c (port_radius l)
    /\ chamber_pressure l' = Some (pressure_at c (port_radius l))
    /\ thrust l' = Some (thrust_at c (port_radius l))
    /\ fuel_flow_rate l' = Some (fuel_flow_at c (port_radius l)).
Proof.
  intros Hr. unfold loop_body. simpl.
  rewrite (exact_pow_Ok _ 2 Hr) by lra. simpl.
  rewrite exact_div_Ok.
  2:{ pose proof PI_RGT_0. pose proof (Rpower_pos (port_radius l) 2).
      apply Rgt_not_eq. now apply Rmult_lt_0_compat. }
  simpl. fold (flux_at c (port_radius l)).
  assert (Hrate : calculate_regression_rate c (port_radius l)
                    (flux_at c (port_radius l))
                  = Ok (rate_at c (port_radius l))).
  { unfold calculate_regression_rate. simpl.
    rewrite exact_pow_Ok.
    - simpl. now destruct (Rlt_bool _ _).
    - apply flux_at_pos.
    - destruct Hvalid as (_ & H & _). lra. }
  rewrite Hrate. simpl.
  unfold calculate_chamber_pressure. simpl.
  rewrite exact_div_Ok.
  2:{ destruct Hvalid as (_ & _ & _ & _ & _ & _ & _ & _ & H & _). lra. }
  simpl. eexists. split; [reflexivity|]. simpl. repeat split.
Qed.

(** The state a history ends in, in closed form. *)
Lemma exact_History (h : list (Locals R * Locals R)) (l : Locals R) :
  History c h l ->
  time l = INR (length h) * DELTA_T c
  /\ port_radius l = radius_before c (length h).
Proof.
  induction 1 as [|h l l' Hh (IHt & IHr) Ht Hb].
  - simpl. split; [lra | reflexivity].
  - assert (Hr : 0 < port_radius l)
      by (rewrite IHr; apply radius_before_pos).
    destruct (exact_pass l Hr) as (l2 & Hb2 & Et & Er & _).
    assert (l2 = l') by congruence. subst l2.
    rewrite length_app, Nat.add_comm. simpl length.
    rewrite S_INR, Et, Er, IHt, IHr. split; [lra | reflexivity].
Qed.

(** Pass [i] starts at time [i * dt] with the radius [radius_before c i]. *)
Lemma exact_History_nth (h : list (Locals R * Locals R)) (l : Locals R) :
  History c h l ->
  forall i a b,
    nth_error h i = Some (a, b) ->
    time a = INR i * DELTA_T c /\ port_radius a = radius_before c i.
Proof.
  induction 1 as [|h l l' Hh IH Ht Hb]; intros i a b Hi.
  - destruct i; discriminate.
  - destruct (Nat.lt_ge_cases i (length h)) as [Hlt|Hge].
    + rewrite nth_error_app1 in Hi by assumption. eauto.
    + rewrite nth_error_app2 in Hi by assumption.
      destruct (i - length h)%nat as [|k] eqn:Ek;
        [|destruct k; discriminate].
      simpl in Hi. inversion Hi; subst a b.
      assert (i = length h) by lia. subst i.
      now apply exact_History.
Qed.

(** The rows of a run, in closed form. *)
Lemma exact_rows (b : nat) (out : Returned.t R) :
  simulate_hybrid_rocket c b = Some (Ok out) ->
  forall i,
    (i < length (Returned.time_data out))%nat ->
    row out i
    = Some (INR i * DELTA_T c,
            radius_before c (S i),
            pressure_at c (radius_before c i),
            thrust_at c (radius_before c i)).
Proof.
  intros H i Hi.
  destruct (run_rows c b out H)
    as (h & l & Hh & _ & _ & L1 & _ & _ & _ & Hrow).
  rewrite L1 in Hi.
  destruct (History_pass_at c h l i Hh Hi) as (a & b' & Hab).
  destruct (Hrow _ _ _ Hab) as (p & f & Hp & Hf & Hr).
  destruct (exact_History_nth h l Hh _ _ _ Hab) as (Et & Er).
  destruct (History_nth c h l Hh _ _ _ Hab) as (_ & Hb & _).
  assert (Hpos : 0 < port_radius a)
    by (rewrite Er; apply radius_before_pos).
  destruct (exact_pass a Hpos) as (l2 & Hb2 & _ & Er2 & Ep2 & Ef2 & _).
  assert (l2 = b') by congruence. subst l2.
  rewrite Hr, Et, Er2, Er. simpl.
  rewrite Ep2 in Hp. rewrite Ef2 in Hf. rewrite Er in Hp, Hf.
  inversion Hp; inversion Hf. reflexivity.
Qed.

End Exact.

Lemma History_nil_inv {num : Type} {A : Arith num} (c : Constants num)
      (l : Locals num) :
  History c [] l -> l = initial_locals c.
Proof.
  intros H. inversion H as [|h l0 l1 Hh Ht Hb E]; [reflexivity|].
  now apply app_eq_nil in E as [_ E].
Qed.

Lemma History_last_pass {num : Type} {A : Arith num} (c : Constants num)
      (h : list (Locals num * Locals num)) (l : Locals num) :
  History c h l -> h <> [] ->
  exists a, nth_error h (length h - 1) = Some (a, l).
Proof.
  intros Hh Hne. assert (H0 : 0 < length h).
  { destruct h; [congruence | simpl; lia]. }
  destruct (History_pass_at c h l (length h - 1) Hh ltac:(lia))
    as (a & b & Hab).
  assert (He := History_end c h l Hh).
  replace (length h) with (S (length h - 1)) in He at 1 by lia.
  simpl in He. rewrite nth_error_map, Hab in He. simpl in He.
  exists a. congruence.
Qed.

Section Settling.
Variable c : Constants R.
Hypothesis Hdt : (0 < DELTA_T c)%R.

Local Open Scope R_scope.

(** In exact arithmetic the clock at [k] is [k] time steps. *)
Lemma exact_clock (k : nat) : clock c k = INR k * DELTA_T c.
Proof.
  induction k as [|k IH].
  - unfold clock. simpl. lra.
  - change (clock c (S k)) with (add (clock c k) (DELTA_T c)).
    rewrite IH, S_INR. simpl. lra.
Qed.

(** [pass_bound] time steps cover the duration. *)
Lemma pass_bound_covers :
  SIMULATION_DURATION c / DELTA_T c <= INR (pass_bound c).
Proof.
  unfold pass_bound.
  destruct (ceiling_spec (SIMULATION_DURATION c / DELTA_T c)) as (_ & Hc).
  destruct (Z_le_gt_dec 0 (ceiling (SIMULATION_DURATION c / DELTA_T c)))
    as [Hz|Hz].
  - rewrite INR_IZR_INZ, Z2Nat.id by assumption. exact Hc.
  - apply Z.gt_lt, IZR_lt in Hz. pose proof (pos_INR (Z.to_nat
      (ceiling (SIMULATION_DURATION c / DELTA_T c)))). lra.
Qed.


(** From a state reached after [length h] passes, [m] more tests of the
    condition settle the loop, by its end or by an exception, as soon as
    [length h + m] time steps cover the duration. *)
Lemma exact_loop_settles (m : nat) :
  forall h l,
    History c h l ->
    SIMULATION_DURATION c / DELTA_T c <= INR (length h) + INR m ->
    exists r, while_loop c (S m) l = Some r.
Proof.
  induction m as [|m IH]; intros h l Hh Hle.
  - assert (Htest : loop_test c l = false).
    { unfold loop_test.
      replace (lt (time l) (SIMULATION_DURATION c)) with false;
        [reflexivity|].
      symmetry. apply Rlt_bool_false.
      rewrite (History_clock c h l Hh), exact_clock.
      replace (SIMULATION_DURATION c)
        with (SIMULATION_DURATION c / DELTA_T c * DELTA_T c)
        by (field; lra).
      apply Rmult_le_compat_r; [lra|]. simpl in Hle. lra. }
    simpl. rewrite Htest. eauto.
  - cbn [while_loop]. destruct (loop_test c l) eqn:Htest; [|eauto].
    destruct (loop_body c l) as [l'|e] eqn:Hb; [|eauto].
    apply (IH (h ++ [(l, l')])).
    + now apply History_pass.
    + rewrite length_app, Nat.add_comm. simpl length.
      rewrite !S_INR in *. lra.
Qed.



End Settling.


Section Termination.
Variable c : Constants R.
Hypothesis Hvalid : valid c.

Local Open Scope R_scope.

Lemma valid_time_step : 0 < DELTA_T c.
Proof. now destruct Hvalid as (_ & _ & _ & _ & _ & _ & _ & _ & _ & H & _). Qed.

(** For valid constants no pass raises: from a state reached after
    [length h] passes, [m] more tests of the condition end the loop as soon
    as [length h + m] time steps cover the duration. *)
Lemma exact_loop_terminates (m : nat) :
  forall h l,
    History c h l ->
    SIMULATION_DURATION c / DELTA_T c <= INR (length h) + INR m ->
    exists l', while_loop c (S m) l = Some (Ok l').
Proof.
  intros h l Hh Hle.
  destruct (exact_loop_settles c valid_time_step m h l Hh Hle) as (r & Hr).
  destruct r as [l'|e]; [eauto|]. exfalso.
  revert h l Hh Hle Hr. induction m as [|m IH]; intros h l Hh Hle Hr.
  - simpl in Hr. destruct (loop_test c l); [|discriminate].
    destruct (exact_History c Hvalid h l Hh) as (_ & Er).
    assert (Hpos : 0 < port_radius l)
      by (rewrite Er; now apply radius_before_pos).
    destruct (exact_pass c Hvalid l Hpos) as (l' & Hb & _).
    rewrite Hb in Hr. discriminate.
  - cbn [while_loop] in Hr. destruct (loop_test c l) eqn:Htest;
      [|discriminate].
    destruct (exact_History c Hvalid h l Hh) as (_ & Er).
    assert (Hpos : 0 < port_radius l)
      by (rewrite Er; now apply radius_before_pos).
    destruct (exact_pass c Hvalid l Hpos) as (l' & Hb & _).
    rewrite Hb in Hr. apply (IH (h ++ [(l, l')]) l').
    + now apply History_pass.
    + rewrite length_app, Nat.add_comm. simpl length.
      rewrite !S_INR in *. lra.
    + exact Hr.
Qed.

(** For valid constants the run returns, after at least one pass. *)
Lemma exact_run_returns :
  exists out,
    simulate_hybrid_rocket c (S (pass_bound c)) = Some (Ok out)
    /\ (1 <= length (Returned.time_data out))%nat.
Proof.
  destruct (exact_loop_terminates (pass_bound c) [] _ (History_start c))
    as (l & Hl).
  { simpl. pose proof (pass_bound_covers c). lra. }
  destruct (while_loop_History c _ _ _ _ (History_start c) Hl)
    as (h & Hh & Htest).
  assert (Hne : h <> []).
  { intros ->. apply History_nil_inv in Hh. subst l.
    unfold loop_test in Htest. simpl in Htest.
    destruct Hvalid
      as (_ & _ & _ & _ & _ & _ & _ & _ & _ & _ & HD & _ & Hmax).
    apply (proj2 (Rlt_bool_true _ _)) in HD, Hmax.
    rewrite HD, Hmax in Htest. discriminate. }
  destruct (History_last_pass c h l Hh Hne) as (a & Ha).
  destruct (History_nth c h l Hh _ _ _ Ha) as (_ & Hbody & _).
  destruct (exact_History_nth c Hvalid h l Hh _ _ _ Ha) as (_ & Er).
  assert (Hr : 0 < port_radius a)
    by (rewrite Er; now apply radius_before_pos).
  destruct (exact_pass c Hvalid a Hr) as (l2 & Hb2 & _ & _ & Ep & Ef & _).
  assert (l2 = l) by congruence. subst l2.
  unfold simulate_hybrid_rocket. rewrite Hl.
  unfold return_tuple. rewrite Ep, Ef. eexists. split; [reflexivity|].
  simpl. destruct (History_lengths c h l Hh) as (L1 & _). rewrite L1.
  destruct h; [congruence | simpl; lia].
Qed.

End Termination.

Lemma returned_lengths {num : Type} {A : Arith num} (c : Constants num)
      (b : nat) (out : Returned.t num) :
  simulate_hybrid_rocket c b = Some (Ok out) ->
  length (Returned.port_radius_data out) = length (Returned.time_data out)
  /\ length (Returned.chamber_pressure_data out)
     = length (Returned.time_data out)
  /\ length (Returned.thrust_data out) = length (Returned.time_data out).
Proof.
  intros H.
  destruct (run_rows c b out H) as (h & l & _ & _ & _ & L1 & L2 & L3 & L4 & _).
  rewrite L1, L2, L3, L4. repeat split.
Qed.

Section ExactSeries.
Variable c : Constants R.
Hypothesis Hvalid : valid c.
Variable b : nat.
Variable out : Returned.t R.
Hypothesis Hrun : simulate_hybrid_rocket c b = Some (Ok out).

Local Open Scope R_scope.

(** Every entry of every series, in closed form. *)
Lemma exact_entries (i : nat) :
  (forall t, nth_error (Returned.time_data out) i = Some t ->
             t = INR i * DELTA_T c)
  /\ (forall r, nth_error (Returned.port_radius_data out) i = Some r ->
                r = radius_before c (S i))
  /\ (forall p, nth_error (Returned.chamber_pressure_data out) i = Some p ->
                p = pressure_at c (radius_before c i))
  /\ (forall f, nth_error (Returned.thrust_data out) i = Some f ->
                f = thrust_at c (radius_before c i)).
Proof.
  destruct (returned_lengths c b out Hrun) as (L2 & L3 & L4).
  assert (Hrow : (i < length (Returned.time_data out))%nat ->
                 nth_error (Returned.time_data out) i
                 = Some (INR i * DELTA_T c)
                 /\ nth_error (Returned.port_radius_data out) i
                    = Some (radius_before c (S i))
                 /\ nth_error (Returned.chamber_pressure_data out) i
                    = Some (pressure_at c (radius_before c i))
                 /\ nth_error (Returned.thrust_data out) i
                    = Some (thrust_at c (radius_before c i))).
  { intros Hi. apply row_Some. now apply (exact_rows c Hvalid b). }
  repeat split; intros x Hx;
    assert (Hi : (i < length (Returned.time_data out))%nat)
      by (first [ apply nth_error_Some; congruence
                | rewrite <- L2; apply nth_error_Some; congruence
                | rewrite <- L3; apply nth_error_Some; congruence
                | rewrite <- L4; apply nth_error_Some; congruence ]);
    destruct (Hrow Hi) as (R1 & R2 & R3 & R4); congruence.
Qed.

End ExactSeries.

Lemma source_constants_valid : valid source_constants.
Proof. unfold valid. simpl. repeat split; lra. Qed.

(* ------------------------------------------------------------------ *)
(** ** Properties of the specification in exact arithmetic *)



Section Doubling.
Variable c : Constants R.
Hypothesis Hvalid : valid c.

Local Open Scope R_scope.






End Doubling.



(* ------------------------------------------------------------------ *)
(** ** Doubling the oxidizer flow under a steep regression law *)

Section Steep.
Local Open Scope R_scope.

Lemma Rpower_2 (x : R) : 0 < x -> Rpower x 2 = x * x.
Proof.
  intros Hx. replace 2 with (INR 2) by (simpl; lra).
  rewrite Rpower_pow by assumption. simpl. ring.
Qed.


(** The regression rate under the exponent 2, cleared of its division. *)
Lemma steep_rate (c : Constants R) (r : R) :
  OXIDIZER_FLUX_EXPONENT c = 2 -> 0 < OXIDIZER_MASS_FLOW_RATE c -> 0 < r ->
  rate_at c r * (PI * PI * (r * r * r * r))
  = REGRESSION_RATE_COEFFICIENT c * (OXIDIZER_MASS_FLOW_RATE c * OXIDIZER_MASS_FLOW_RATE c).
Proof.
  intros He Hox Hr. unfold rate_at, flux_at. rewrite He.
  rewrite (Rpower_2 r Hr).
  pose proof PI_RGT_0.
  assert (0 < r * r) by nra.
  rewrite Rpower_2.
  - field. split; lra.
  - apply Rdiv_lt_0_compat; [assumption|]. nra.
Qed.




End Steep.


(* ------------------------------------------------------------------ *)
(** ** Further properties in exact arithmetic *)

(** In exact arithmetic, whenever the maximum port radius is not above the
    initial one, or the duration is not positive, the loop makes no pass and
    the [return] raises [UnboundLocalError]. *)
Theorem degenerate_constants_raise (c : Constants R) (b : nat) :
  (MAX_PORT_RADIUS c <= INITIAL_PORT_RADIUS c
   \/ SIMULATION_DURATION c <= 0)%R ->
  while_loop c (S b) (initial_locals c) = Some (Ok (initial_locals c))
  /\ simulate_hybrid_rocket c (S b)
     = Some (Raise (UnboundLocalError "chamber_pressure")).
Proof.
  intros H. apply no_pass_raises. unfold loop_test. simpl.
  destruct H as [H|H]; apply (proj2 (Rlt_bool_false _ _)) in H; rewrite H.
  - apply andb_false_r.
  - reflexivity.
Qed.

Lemma degenerate_constants_raise_witness :
  simulate_hybrid_rocket degenerate_constants 1
  = Some (Raise (UnboundLocalError "chamber_pressure")).
Proof.
  apply (degenerate_constants_raise degenerate_constants 0).
  left. simpl. lra.
Defined.

(** In exact arithmetic and for valid constants, the thrust divided by the
    chamber pressure is the throat area at every recorded index. *)
Lemma exact_quotient
        (c : Constants R) (b : nat) (out : Returned.t R) (i : nat) (f p : R) :
  valid c ->
  simulate_hybrid_rocket c b = Some (Ok out) ->
  nth_error (Returned.thrust_data out) i = Some f ->
  nth_error (Returned.chamber_pressure_data out) i = Some p ->
  (f / p = THROAT_AREA c)%R.
Proof.
  intros Hvalid Hrun Hf Hp.
  destruct (exact_entries c Hvalid b out Hrun i) as (_ & _ & Ep & Ef).
  rewrite (Ef _ Hf), (Ep _ Hp). unfold thrust_at, pressure_at.
  pose proof (total_flow_at_pos c Hvalid _ (radius_before_pos c Hvalid i)).
  destruct Hvalid as (_ & _ & _ & _ & _ & _ & _ & Hcs & Hat & _).
  field. repeat split; apply Rgt_not_eq; assumption.
Qed.


Lemma overshoot_constants_valid : valid overshoot_constants.
Proof. unfold valid. simpl. repeat split; lra. Qed.

(** The last recorded radius can exceed the limit: on
    [overshoot_constants], which are valid, the run records one entry, and
    that entry, the final port radius, lies above [MAX_PORT_RADIUS]. *)
Lemma first_pass_overshoots :
  valid overshoot_constants
  /\ exists out r,
      simulate_hybrid_rocket overshoot_constants
                             (S (pass_bound overshoot_constants))
      = Some (Ok out)
      /\ Returned.port_radius_data out = [r]
      /\ Returned.final_port_radius out = r
      /\ (MAX_PORT_RADIUS overshoot_constants < r)%R.
Proof.
  pose proof overshoot_constants_valid as Hv.
  split; [exact Hv|].
  set (c := overshoot_constants) in *.
  assert (Hr1 : (2 < radius_before c 1)%R).
  { unfold radius_before. simpl. unfold radius_after.
    pose proof (steep_rate c 1%R eq_refl ltac:(simpl; lra) ltac:(lra)) as E.
    simpl in E. pose proof (rate_at_pos c Hv 1%R).
    pose proof PI_4. pose proof PI_RGT_0. simpl. nra. }
  destruct (exact_run_returns c Hv) as (out & H & Hlen).
  destruct (run_rows c _ out H)
    as (h & l & Hh & Htest & Ef & L1 & L2 & _).
  assert (Hone : length h = 1).
  { destruct (Nat.le_gt_cases (length h) 1) as [Hle|Hgt]; [lia|].
    destruct (History_pass_at c h l 1 Hh Hgt) as (a & b' & Hab).
    destruct (History_nth c h l Hh _ _ _ Hab) as (Ht & _ & _).
    destruct (exact_History_nth c Hv h l Hh _ _ _ Hab) as (_ & Er).
    unfold loop_test in Ht. apply andb_true_iff in Ht as [_ Ht].
    simpl in Ht. apply Rlt_bool_true in Ht. rewrite Er in Ht. lra. }
  pose proof (exact_rows c Hv _ out H 0 ltac:(lia)) as Hrow.
  apply row_Some in Hrow as (_ & Hr & _).
  destruct (exact_History c Hv h l Hh) as (_ & El).
  rewrite Hone in El, L2.
  exists out, (radius_before c 1). split; [exact H|].
  repeat split.
  - destruct (Returned.port_radius_data out) as [|x [|y t]];
      try discriminate.
    cbn [nth_error] in Hr. now inversion Hr.
  - congruence.
  - simpl. exact Hr1.
Qed.

(* ------------------------------------------------------------------ *)
(** ** Rounding to nearest in binary64 *)

(** The operations of a primitive float are specified by [SpecFloat] on
    mantissas and exponents, with [prec = 53] and [emax = 1024]; the
    lemmas below read signs and order off that specification. *)

Section Rounding.
Local Open Scope Z_scope.

(** The exponent of the format at a given magnitude. *)
Lemma fexp_eq (k : Z) : fexp prec emax k = Z.max (k - 53) (-1074).
Proof. reflexivity. Qed.

(** The number of binary digits of a mantissa. *)
Lemma digits2_pos_log2 (m : positive) :
  Zpos (digits2_pos m) = Z.log2 (Zpos m) + 1.
Proof.
  assert (E : forall p, digits2_pos p = Pos.size p)
    by (induction p; simpl; congruence).
  rewrite E. destruct m; simpl; try rewrite Pos2Z.inj_succ; lia.
Qed.

Lemma digits2_pos_bounds (m : positive) :
  2 ^ (Zpos (digits2_pos m) - 1) <= Zpos m < 2 ^ Zpos (digits2_pos m).
Proof.
  rewrite digits2_pos_log2.
  replace (Z.log2 (Zpos m) + 1 - 1) with (Z.log2 (Zpos m)) by lia.
  apply Z.log2_spec. lia.
Qed.

(** A shift to the right by one bit halves the mantissa, and a shift by
    [p] bits divides it by [2 ^ p]. *)
Lemma shr_1_m (mrs : shr_record) :
  0 <= shr_m mrs -> shr_m (shr_1 mrs) = shr_m mrs / 2.
Proof.
  destruct mrs as [m r s]. simpl. intros Hm.
  rewrite <- Z.div2_div.
  destruct m as [|[p|p|]|p]; try reflexivity; lia.
Qed.

Lemma iter_shr_1_m (p : positive) :
  forall mrs,
    0 <= shr_m mrs ->
    shr_m (SpecFloat.iter_pos shr_1 p mrs) = shr_m mrs / 2 ^ Zpos p.
Proof.
  induction p as [p IH|p IH|]; intros mrs Hm; simpl SpecFloat.iter_pos.
  - assert (H1 : 0 <= shr_m (shr_1 mrs))
      by (rewrite shr_1_m by assumption; apply Z.div_pos; lia).
    assert (H2 : 0 <= shr_m (SpecFloat.iter_pos shr_1 p (shr_1 mrs)))
      by (rewrite IH by assumption; apply Z.div_pos; [assumption|lia]).
    rewrite IH, IH, shr_1_m by assumption.
    rewrite !Z.div_div by lia.
    f_equal. rewrite <- Z.pow_add_r, <- Z.pow_succ_r by lia. f_equal. lia.
  - assert (H2 : 0 <= shr_m (SpecFloat.iter_pos shr_1 p mrs))
      by (rewrite IH by assumption; apply Z.div_pos; [assumption|lia]).
    rewrite IH, IH by assumption.
    rewrite !Z.div_div by lia.
    f_equal. rewrite <- Z.pow_add_r by lia. f_equal. lia.
  - now apply shr_1_m.
Qed.

Lemma shr_record_of_loc_m (m : Z) (l : location) :
  shr_m (shr_record_of_loc m l) = m.
Proof. destruct l as [|[]]; reflexivity. Qed.

(** Shifting a positive mantissa to its format exponent: the exponent does
    not go down, the mantissa is divided by the matching power of two and
    stays positive. *)
Lemma shr_fexp_spec (m e : Z) (l : location) :
  0 < m -> -1074 <= e ->
  let e' := snd (shr_fexp prec emax m e l) in
  let m' := shr_m (fst (shr_fexp prec emax m e l)) in
  e' = Z.max e (fexp prec emax (Zdigits2 m + e))
  /\ m' = m / 2 ^ (e' - e)
  /\ 0 < m'.
Proof.
  intros Hm He. unfold shr_fexp, shr. rewrite fexp_eq.
  destruct m as [|p|p]; try lia. simpl Zdigits2.
  pose proof (digits2_pos_bounds p) as [Hd _].
  set (d := Zpos (digits2_pos p)) in *.
  destruct (Z.max (d + e - 53) (-1074) - e) as [|n|n] eqn:En; cbn [fst snd].
  - rewrite shr_record_of_loc_m.
    replace (Z.max e (Z.max (d + e - 53) (-1074))) with e by lia.
    rewrite Z.sub_diag, Z.div_1_r. lia.
  - assert (Zpos n = d - 53) by lia.
    rewrite iter_shr_1_m by (rewrite shr_record_of_loc_m; lia).
    rewrite shr_record_of_loc_m.
    replace (e + Zpos n - e) with (Zpos n) by lia.
    split; [lia|]. split; [reflexivity|].
    apply Z.lt_le_trans with 1; [lia|].
    apply Z.div_le_lower_bound; [lia|]. rewrite Z.mul_1_r.
    apply Z.le_trans with (2 ^ (d - 1)); [|assumption].
    apply Z.pow_le_mono_r; lia.
  - rewrite shr_record_of_loc_m.
    replace (Z.max e (Z.max (d + e - 53) (-1074))) with e by lia.
    rewrite Z.sub_diag, Z.div_1_r. lia.
Qed.

Lemma round_nearest_even_bounds (m : Z) (l : location) :
  m <= round_nearest_even m l <= m + 1.
Proof.
  destruct l as [|[]]; simpl; try destruct (Z.even m); lia.
Qed.


Lemma shr_fexp_nonneg (m e : Z) (l : location) :
  0 <= m -> 0 <= shr_m (fst (shr_fexp prec emax m e l)).
Proof.
  intros Hm. unfold shr_fexp, shr.
  destruct (fexp prec emax (Zdigits2 m + e) - e) as [|n|n]; cbn [fst];
    try (rewrite shr_record_of_loc_m; assumption).
  rewrite iter_shr_1_m by (rewrite shr_record_of_loc_m; assumption).
  rewrite shr_record_of_loc_m. apply Z.div_pos; lia.
Qed.

(** Rounding a non-negative mantissa gives a float that is not below zero. *)
Lemma binary_round_aux_nonneg (m e : Z) (l : location) :
  0 <= m ->
  SFleb (S754_zero false) (binary_round_aux prec emax false m e l) = true.
Proof.
  intros Hm. unfold binary_round_aux.
  pose proof (shr_fexp_nonneg m e l Hm) as H1.
  destruct (shr_fexp prec emax m e l) as [mrs' e']. cbn [fst] in H1.
  pose proof (round_nearest_even_bounds (shr_m mrs') (loc_of_shr_record mrs'))
    as [H2 _].
  set (m2 := round_nearest_even (shr_m mrs') (loc_of_shr_record mrs')) in *.
  assert (H3 : 0 <= m2) by lia.
  pose proof (shr_fexp_nonneg m2 e' loc_Exact H3) as H4.
  destruct (shr_fexp prec emax m2 e' loc_Exact) as [mrs'' e''].
  cbn [fst] in H4.
  destruct (shr_m mrs'') as [|p|p]; try lia; [reflexivity|].
  destruct (e'' <=? emax - prec); reflexivity.
Qed.

Lemma above_leb (mx : positive) (ex : Z) (z : spec_float) :
  above mx ex z ->
  SFleb (S754_finite false mx ex) z = true
  /\ SFltb (S754_zero false) z = true.
Proof.
  intros [->|(m & e & -> & H)]; [split; reflexivity|].
  split; [|reflexivity].
  unfold SFleb, SFcompare.
  destruct H as [H|[-> H]].
  - apply Z.compare_lt_iff in H. now rewrite H.
  - rewrite Z.compare_refl. fold (Pos.compare mx m).
    unfold Pos.le in H. now destruct (mx ?= m)%positive.
Qed.

(** Rounding to nearest does not go below a float of the format that the
    rounded number is not below. *)
Lemma binary_round_aux_above (mx : positive) (ex : Z) (m e : Z) :
  fexp prec emax (Zpos (digits2_pos mx) + ex) = ex ->
  0 < m -> -1074 <= e ->
  ex < e \/ (e <= ex /\ Zpos mx * 2 ^ (ex - e) <= m) ->
  above mx ex (binary_round_aux prec emax false m e loc_Exact).
Proof.
  intros Hcan Hm He Hle. unfold binary_round_aux.
  pose proof (shr_fexp_spec m e loc_Exact Hm He) as (E1 & M1 & P1).
  destruct (shr_fexp prec emax m e loc_Exact) as [mrs' e'].
  cbn [fst snd] in E1, M1, P1.
  pose proof (round_nearest_even_bounds (shr_m mrs') (loc_of_shr_record mrs'))
    as [H2 _].
  set (m2 := round_nearest_even (shr_m mrs') (loc_of_shr_record mrs')) in *.
  assert (Hm2 : 0 < m2) by lia.
  assert (He' : -1074 <= e') by lia.
  pose proof (shr_fexp_spec m2 e' loc_Exact Hm2 He') as (E2 & M2 & P2).
  destruct (shr_fexp prec emax m2 e' loc_Exact) as [mrs'' e''].
  cbn [fst snd] in E2, M2, P2.
  destruct (shr_m mrs'') as [|mf|mf] eqn:Emf; try lia.
  assert (Hgoal : ex < e'' \/ (e'' = ex /\ (mx <= mf)%positive)).
  { destruct Hle as [Hlt|[Hle Hval]]; [left; lia|].
    assert (Hex : ex <= e').
    { rewrite E1. rewrite <- Hcan at 1. rewrite !fexp_eq.
      destruct m as [|pm|pm]; try lia. simpl Zdigits2.
      rewrite !digits2_pos_log2.
      assert (Z.log2 (Zpos mx * 2 ^ (ex - e)) <= Z.log2 (Zpos pm))
        by (apply Z.log2_le_mono; assumption).
      rewrite Z.log2_mul_pow2 in H by lia. lia. }
    destruct (Z.eq_dec e'' ex) as [Eq|Ne]; [right|left; lia].
    split; [assumption|].
    replace (e'' - e') with 0 in M2 by lia.
    rewrite Z.pow_0_r, Z.div_1_r in M2.
    assert (Zpos mx <= shr_m mrs').
    { rewrite M1. replace (e' - e) with (ex - e) by lia.
      apply Z.div_le_lower_bound; [|lia].
      apply Z.pow_pos_nonneg; lia. }
    unfold Pos.le. change (Zpos mx <= Zpos mf) with (Zpos mx <= Zpos mf).
    apply Pos2Z.pos_le_pos. lia. }
  destruct (e'' <=? emax - prec).
  - right. exists mf, e''. split; [reflexivity|assumption].
  - now left.
Qed.

Lemma iter_xO (m d : positive) :
  Zpos (Pos.iter xO m d) = Zpos m * 2 ^ Zpos d.
Proof.
  induction d as [|d IH] using Pos.peano_ind.
  - simpl. lia.
  - rewrite Pos.iter_succ, Pos2Z.inj_xO, IH, Pos2Z.inj_succ, Z.pow_succ_r
      by lia. ring.
Qed.

(** Aligning a mantissa to a lower exponent keeps the number. *)
Lemma shl_align_spec (m : positive) (e e' : Z) :
  snd (shl_align m e e') = Z.min e e'
  /\ Zpos (fst (shl_align m e e')) = Zpos m * 2 ^ (e - Z.min e e').
Proof.
  unfold shl_align. destruct (e' - e) as [|d|d] eqn:Ed; cbn [fst snd].
  - replace (Z.min e e') with e by lia. rewrite Z.sub_diag. simpl. lia.
  - replace (Z.min e e') with e by lia. rewrite Z.sub_diag. simpl. lia.
  - replace (Z.min e e') with e' by lia. split; [reflexivity|].
    rewrite iter_xO. f_equal. f_equal. lia.
Qed.

Lemma valid_finite (s : bool) (m : positive) (e : Z) :
  valid_binary (S754_finite s m e) = true ->
  fexp prec emax (Zpos (digits2_pos m) + e) = e /\ -1074 <= e.
Proof.
  simpl. unfold bounded, canonical_mantissa.
  intros H. apply andb_prop in H as [H _]. apply Z.eqb_eq in H.
  split; [assumption|]. rewrite <- H, fexp_eq. lia.
Qed.

(** The sum of two positive floats is not below the first. *)
Lemma SFadd_above (mx : positive) (ex : Z) (my : positive) (ey : Z) :
  valid_binary (S754_finite false mx ex) = true ->
  valid_binary (S754_finite false my ey) = true ->
  above mx ex (SF64add (S754_finite false mx ex) (S754_finite false my ey)).
Proof.
  intros Hx Hy.
  apply valid_finite in Hx as [Hcan Hex].
  apply valid_finite in Hy as [_ Hey].
  unfold SF64add, SFadd. cbn [cond_Zopp].
  destruct (shl_align_spec mx ex (Z.min ex ey)) as [_ Ea].
  destruct (shl_align_spec my ey (Z.min ex ey)) as [_ Eb].
  set (a := fst (shl_align mx ex (Z.min ex ey))) in *.
  set (b := fst (shl_align my ey (Z.min ex ey))) in *.
  change (Zpos a + Zpos b) with (Zpos (a + b)).
  unfold binary_normalize, binary_round.
  set (ez := Z.min ex ey) in *.
  set (target := fexp prec emax (Zpos (digits2_pos (a + b)) + ez)).
  destruct (shl_align_spec (a + b) ez target) as [E1 Ez].
  destruct (shl_align (a + b) ez target) as [mz e1].
  cbn [fst snd] in E1, Ez.
  assert (Ht : -1074 <= target) by (unfold target; rewrite fexp_eq; lia).
  apply binary_round_aux_above; try assumption; try lia.
  right. split; [lia|].
  assert (Hez : ez <= ex /\ ez <= ey) by (unfold ez; lia).
  rewrite Ez, <- E1, Pos2Z.inj_add, Ea, Eb.
  replace (Z.min ex ez) with ez by lia.
  replace (Z.min ey ez) with ez by lia.
  replace (ex - e1) with ((ex - ez) + (ez - e1)) by lia.
  rewrite Z.pow_add_r, Z.mul_assoc by lia.
  apply Z.mul_le_mono_nonneg_r; [apply Z.pow_nonneg; lia|].
  assert (0 <= Zpos my * 2 ^ (ey - ez))
    by (apply Z.mul_nonneg_nonneg; [lia|apply Z.pow_nonneg; lia]).
  lia.
Qed.


Lemma SFdiv_core_binary_nonneg (mx : positive) (ex : Z) (my : positive)
      (ey : Z) :
  0 <= fst (fst (SFdiv_core_binary prec emax (Zpos mx) ex (Zpos my) ey)).
Proof.
  unfold SFdiv_core_binary.
  set (s := ex - ey - _).
  set (m' := match s with Z0 => Zpos mx | Zpos _ => Z.shiftl (Zpos mx) s
                     | Zneg _ => 0 end).
  assert (Hm' : 0 <= m').
  { unfold m'. destruct s; try lia. apply Z.shiftl_nonneg. lia. }
  destruct (Z.div_eucl m' (Zpos my)) as [q r] eqn:E. cbn [fst].
  assert (q = m' / Zpos my) by (unfold Z.div; now rewrite E).
  subst q. apply Z.div_pos; lia.
Qed.

End Rounding.

(* ------------------------------------------------------------------ *)
(** ** Signs and order of the binary64 operations *)

Section Float.
Local Open Scope float_scope.

Lemma Prim2SF_zero : Prim2SF 0 = S754_zero false.
Proof. reflexivity. Qed.

Lemma Prim2SF_infinity : Prim2SF infinity = S754_infinity false.
Proof. reflexivity. Qed.

(** The non-negative floats: the zeros, the positive finite floats and
    [+oo]. *)
Lemma nonneg_cases (x : float) :
  (0 <=? x) = true ->
  (exists s, Prim2SF x = S754_zero s)
  \/ (exists m e, Prim2SF x = S754_finite false m e)
  \/ Prim2SF x = S754_infinity false.
Proof.
  rewrite FloatAxioms.leb_spec, Prim2SF_zero.
  destruct (Prim2SF x) as [s|[]| |[] m e]; simpl; try discriminate; eauto.
Qed.

Lemma positive_cases (x : float) :
  (0 <? x) = true ->
  (exists m e, Prim2SF x = S754_finite false m e)
  \/ Prim2SF x = S754_infinity false.
Proof.
  rewrite FloatAxioms.ltb_spec, Prim2SF_zero.
  destruct (Prim2SF x) as [s|[]| |[] m e]; simpl; try discriminate; eauto.
Qed.

Lemma positive_nonneg (x : float) : (0 <? x) = true -> (0 <=? x) = true.
Proof.
  intros H. rewrite FloatAxioms.leb_spec, Prim2SF_zero.
  destruct (positive_cases x H) as [(m & e & ->)| ->]; reflexivity.
Qed.

Lemma positive_not_nan (x : float) : (0 <? x) = true -> (x =? x) = true.
Proof.
  intros H. rewrite FloatAxioms.eqb_spec.
  destruct (positive_cases x H) as [(m & e & ->)| ->]; [|reflexivity].
  unfold SFeqb, SFcompare.
  now rewrite Z.compare_refl, Pos.compare_cont_refl.
Qed.

(** Adding a non-negative float to a positive one gives a positive float
    that is not below it. *)
Lemma add_grows (r x : float) :
  (0 <? r) = true -> (0 <=? x) = true ->
  (r <=? r + x) = true /\ (0 <? r + x) = true.
Proof.
  intros Hr Hx.
  pose proof (Prim2SF_valid r) as Vr. pose proof (Prim2SF_valid x) as Vx.
  rewrite FloatAxioms.leb_spec, FloatAxioms.ltb_spec, FloatAxioms.add_spec,
    Prim2SF_zero.
  destruct (positive_cases r Hr) as [(mr & er & Er)|Er];
    destruct (nonneg_cases x Hx) as [(s & Ex)|[(mx & ex & Ex)|Ex]];
    rewrite Er, Ex in *.
  - split; [|reflexivity]. destruct s; simpl;
      unfold SFleb, SFcompare;
      now rewrite Z.compare_refl, Pos.compare_cont_refl.
  - apply above_leb, SFadd_above; assumption.
  - split; reflexivity.
  - destruct s; split; reflexivity.
  - split; reflexivity.
  - split; reflexivity.
Qed.

(** The product of a non-negative float and a positive finite one is not
    below zero, in either order of the factors. *)
Lemma mul_nonneg (x y : float) :
  (0 <=? x) = true -> (0 <? y) = true -> (y <? infinity) = true ->
  (0 <=? x * y) = true /\ (0 <=? y * x) = true.
Proof.
  intros Hx Hy Hfin.
  rewrite FloatAxioms.ltb_spec, Prim2SF_infinity in Hfin.
  rewrite !FloatAxioms.leb_spec, !FloatAxioms.mul_spec, Prim2SF_zero.
  destruct (positive_cases y Hy) as [(my & ey & Ey)|Ey]; rewrite Ey in *;
    [|discriminate].
  destruct (nonneg_cases x Hx) as [(s & Ex)|[(mx & ex & Ex)|Ex]];
    rewrite Ex.
  - destruct s; split; reflexivity.
  - unfold SF64mul, SFmul. cbn [xorb].
    split; apply binary_round_aux_nonneg; lia.
  - split; reflexivity.
Qed.

(** The quotient of a finite non-negative float by a positive one is not
    below zero. *)
Lemma div_nonneg (x y : float) :
  (0 <=? x) = true -> (x <? infinity) = true -> (0 <? y) = true ->
  (0 <=? x / y) = true.
Proof.
  intros Hx Hfin Hy.
  rewrite FloatAxioms.ltb_spec, Prim2SF_infinity in Hfin.
  rewrite FloatAxioms.leb_spec, FloatAxioms.div_spec, Prim2SF_zero.
  destruct (nonneg_cases x Hx) as [(s & Ex)|[(mx & ex & Ex)|Ex]];
    rewrite Ex in *; [| |discriminate];
    destruct (positive_cases y Hy) as [(my & ey & Ey)|Ey]; rewrite Ey.
  - destruct s; reflexivity.
  - destruct s; reflexivity.
  - unfold SF64div, SFdiv. cbn [xorb].
    pose proof (SFdiv_core_binary_nonneg mx ex my ey) as H.
    destruct (SFdiv_core_binary prec emax (Zpos mx) ex (Zpos my) ey)
      as [[mz ez] lz]. cbn [fst] in H.
    now apply binary_round_aux_nonneg.
  - reflexivity.
Qed.

(** A non-negative float that is not zero is positive. *)
Lemma nonneg_nonzero (x : float) :
  (0 <=? x) = true -> (x =? 0) = false -> (0 <? x) = true.
Proof.
  intros Hx Hz. rewrite FloatAxioms.eqb_spec, Prim2SF_zero in Hz.
  rewrite FloatAxioms.ltb_spec, Prim2SF_zero.
  destruct (nonneg_cases x Hx) as [(s & Ex)|[(mx & ex & Ex)|Ex]];
    rewrite Ex in *; try reflexivity.
  destruct s; discriminate.
Qed.

End Float.

(* ------------------------------------------------------------------ *)
(** ** The port radius in binary64 *)

Section Growth64.
Variable power : float -> float -> result float.
Hypothesis Hpower : nonnegative_power power.
Variable c : Constants float.
Hypothesis Hvalid : valid_floats c = true.
Hypothesis Hfinite : finite_rates c = true.

Local Open Scope float_scope.

(** A pass that starts from a positive radius ends on a positive radius
    that is not below it. *)
Lemma binary64_pass_grows (l l' : Locals float) :
  (0 <? port_radius l) = true ->
  loop_body (A := binary64_with power) c l = Ok l' ->
  (port_radius l <=? port_radius l') = true
  /\ (0 <? port_radius l') = true.
Proof.
  intros Hr Hb.
  assert (Ha : (0 <? REGRESSION_RATE_COEFFICIENT c) = true)
    by (unfold valid_floats in Hvalid;
        repeat (apply andb_prop in Hvalid as [Hvalid ?]); assumption).
  assert (Hn : (0 <? OXIDIZER_FLUX_EXPONENT c) = true)
    by (unfold valid_floats in Hvalid;
        repeat (apply andb_prop in Hvalid as [Hvalid ?]); assumption).
  assert (Hox : (0 <? OXIDIZER_MASS_FLOW_RATE c) = true)
    by (unfold valid_floats in Hvalid;
        repeat (apply andb_prop in Hvalid as [Hvalid ?]); assumption).
  assert (Hdt : (0 <? DELTA_T c) = true)
    by (unfold valid_floats in Hvalid;
        repeat (apply andb_prop in Hvalid as [Hvalid ?]); assumption).
  unfold finite_rates in Hfinite.
  apply andb_prop in Hfinite as [Hfin Fdt].
  apply andb_prop in Hfin as [Fa Fox].
  apply (loop_body_Ok (A := binary64_with power)) in Hb
    as (r2 & flux & rate & pressure & Hr2 & Hflux & Hrate & Hl').
  cbv zeta in Hl'. destruct Hl' as [_ ->]. cbn [port_radius].
  cbn [pow two pi add mul div binary64_with] in *.
  assert (P2 : (0 <=? r2) = true).
  { apply (Hpower (port_radius l) 2 r2);
      [now apply positive_nonneg | reflexivity | assumption]. }
  unfold binary64_div in Hflux.
  destruct (0x1.921fb54442d18p+1 * r2 =? 0) eqn:Ez; [discriminate|].
  injection Hflux as <-.
  assert (Pd : (0 <? 0x1.921fb54442d18p+1 * r2) = true).
  { apply nonneg_nonzero; [|assumption].
    apply (mul_nonneg r2 0x1.921fb54442d18p+1);
      [assumption | reflexivity | reflexivity]. }
  assert (Pflux : (0 <=? OXIDIZER_MASS_FLOW_RATE c
                           / (0x1.921fb54442d18p+1 * r2)) = true)
    by (apply div_nonneg; [now apply positive_nonneg | assumption..]).
  assert (Prate : (0 <=? rate) = true).
  { unfold calculate_regression_rate in Hrate.
    cbn [pow mul lt binary64_with] in Hrate.
    destruct (port_radius l <? SINGULARITY_THRESHOLD c);
      apply bind_Ok in Hrate as (p & Hp & Hrate);
      injection Hrate as <-;
      apply (mul_nonneg p (REGRESSION_RATE_COEFFICIENT c));
      try assumption;
      apply (Hpower _ _ _ Pflux (positive_not_nan _ Hn) Hp). }
  apply add_grows; [assumption|].
  now apply (mul_nonneg rate (DELTA_T c)).
Qed.

(** Along a run the radius stays positive, and no pass lowers it. *)
Lemma binary64_History_grows
      (h : list (Locals float * Locals float)) (l : Locals float) :
  History (A := binary64_with power) c h l ->
  (0 <? port_radius l) = true
  /\ forall a b, In (a, b) h -> (port_radius a <=? port_radius b) = true.
Proof.
  induction 1 as [|h l l' Hh [IHr IHh] Ht Hb].
  - split; [|intros a b []].
    unfold valid_floats in Hvalid.
    repeat (apply andb_prop in Hvalid as [Hvalid ?]); assumption.
  - destruct (binary64_pass_grows l l' IHr Hb) as [Hle Hpos].
    split; [assumption|].
    intros a b Hin. apply in_app_or in Hin as [Hin|[Hin|[]]].
    + now apply IHh.
    + now injection Hin as <- <-.
Qed.

(** Hence consecutive entries of the port-radius series are in order. *)
Lemma binary64_series_grows (b : nat) (out : Returned.t float) :
  simulate_hybrid_rocket (A := binary64_with power) c b = Some (Ok out) ->
  forall i r r',
    nth_error (Returned.port_radius_data out) i = Some r ->
    nth_error (Returned.port_radius_data out) (S i) = Some r' ->
    (r <=? r') = true.
Proof.
  intros H i r r' Hr Hr'.
  destruct (run_rows (A := binary64_with power) c b out H)
    as (h & l & Hh & _ & _ & _ & L2 & _ & _ & Hrow).
  assert (HS : S i < length h)
    by (rewrite <- L2; apply nth_error_Some; congruence).
  destruct (History_pass_at (A := binary64_with power) c h l i Hh
                            ltac:(lia)) as (a & b1 & Hab).
  destruct (History_pass_at (A := binary64_with power) c h l (S i) Hh HS)
    as (a' & b2 & Hab').
  assert (a' = b1)
    by (eapply (History_consecutive (A := binary64_with power)); eauto).
  subst a'.
  destruct (Hrow _ _ _ Hab) as (p & f & _ & _ & R).
  destruct (Hrow _ _ _ Hab') as (p' & f' & _ & _ & R').
  apply row_Some in R as (_ & R & _). apply row_Some in R' as (_ & R' & _).
  assert (r = port_radius b1) by congruence.
  assert (r' = port_radius b2) by congruence. subst r r'.
  destruct (binary64_History_grows h l Hh) as [_ Hall].
  apply Hall. eapply nth_error_In. exact Hab'.
Qed.

End Growth64.

(** Both power functions of this file keep the sign of a non-negative
    base. *)
Lemma binary64_pow_nonnegative : nonnegative_power binary64_pow.
Proof.
  intros x y v _ _. unfold binary64_pow.
  destruct (PrimFloat.eqb y 0); [intros [= <-]; reflexivity|].
  destruct (PrimFloat.eqb x 1); [intros [= <-]; reflexivity|discriminate].
Qed.

Lemma rounded_pow_nonnegative : nonnegative_power rounded_pow.
Proof.
  intros x y v Hx _. unfold rounded_pow.
  destruct (PrimFloat.eqb y 0); [intros [= <-]; reflexivity|].
  destruct (PrimFloat.eqb x 1); [intros [= <-]; reflexivity|].
  destruct (PrimFloat.eqb y 1); [intros [= <-]; assumption|].
  destruct (PrimFloat.eqb y 2 && PrimFloat.ltb (x * x) infinity)%float
           eqn:E; [|discriminate].
  intros [= <-].
  clear E. rewrite FloatAxioms.leb_spec, FloatAxioms.mul_spec.
  destruct (nonneg_cases x Hx) as [(s & Ex)|[(m & e & Ex)|Ex]];
    rewrite Ex in *.
  - destruct s; reflexivity.
  - unfold SF64mul, SFmul. cbn [xorb]. apply binary_round_aux_nonneg. lia.
  - reflexivity.
Qed.

(* ------------------------------------------------------------------ *)
(** ** Properties stated for both arithmetics *)

(** C4, as amended.  In every arithmetic, at every recorded index the
    chamber pressure is the thrust at that index divided by the throat area,
    with the division of the program.  In exact arithmetic and for valid
    constants, the thrust divided by the chamber pressure is the throat
    area. *)
Theorem pressure_is_thrust_over_throat :
  (forall (num : Type) (A : Arith num) (c : Constants num)
          (b : nat) (out : Returned.t num) (i : nat) (f : num),
      simulate_hybrid_rocket c b = Some (Ok out) ->
      nth_error (Returned.thrust_data out) i = Some f ->
      exists p,
        nth_error (Returned.chamber_pressure_data out) i = Some p
        /\ div f (THROAT_AREA c) = Ok p)
  /\ (forall (c : Constants R) (b : nat) (out : Returned.t R)
             (i : nat) (f p : R),
        valid c ->
        simulate_hybrid_rocket c b = Some (Ok out) ->
        nth_error (Returned.thrust_data out) i = Some f ->
        nth_error (Returned.chamber_pressure_data out) i = Some p ->
        (f / p = THROAT_AREA c)%R).
Proof.
  split.
  - intros num A c. exact (pressure_from_thrust c).
  - exact exact_quotient.
Qed.

Lemma pressure_is_thrust_over_throat_witness :
  (exists out f p,
      simulate_hybrid_rocket brief_floats 10 = Some (Ok out)
      /\ nth_error (Returned.thrust_data out) 0 = Some f
      /\ nth_error (Returned.chamber_pressure_data out) 0 = Some p
      /\ binary64_div f (THROAT_AREA brief_floats) = Ok p)
  /\ (exists out f p,
        simulate_hybrid_rocket source_constants
                               (S (pass_bound source_constants))
        = Some (Ok out)
        /\ nth_error (Returned.thrust_data out) 0 = Some f
        /\ nth_error (Returned.chamber_pressure_data out) 0 = Some p
        /\ (f / p = 1 / 100)%R).
Proof.
  split.
  - destruct brief_run_returns as (out & H).
    destruct (nth_error (Returned.thrust_data out) 0) as [f|] eqn:Ef.
    + destruct (proj1 pressure_is_thrust_over_throat
                      _ _ brief_floats 10 out 0 f H Ef)
        as (p & Hp & Hd).
      exists out, f, p. repeat split; assumption.
    + exfalso. vm_compute in H. inversion H; subst out. discriminate Ef.
  - pose proof source_constants_valid as Hv.
    destruct (exact_run_returns _ Hv) as (out & H & Hlen).
    pose proof (exact_rows _ Hv _ out H 0 ltac:(lia)) as Hr.
    apply row_Some in Hr as (_ & _ & Hp & Hf).
    exists out. eexists. eexists.
    split; [exact H|]. split; [exact Hf|]. split; [exact Hp|].
    exact (proj2 pressure_is_thrust_over_throat
                 source_constants _ out 0 _ _ Hv H Hf Hp).
Defined.

(** C5.  In binary64, under every power function that keeps the sign of a
    non-negative base, and for valid constants whose coefficient, oxidizer
    flow and time step are finite, the recorded port-radius series of a run
    that returns is non-decreasing: each entry is at most the next one, in
    the order of the floats.  For valid constants the same holds in exact
    arithmetic. *)
Theorem port_radius_series_nondecreasing :
  (forall (power : float -> float -> result float) (c : Constants float)
          (b : nat) (out : Returned.t float) (i : nat) (r r' : float),
      nonnegative_power power ->
      valid_floats c = true ->
      finite_rates c = true ->
      simulate_hybrid_rocket (A := binary64_with power) c b = Some (Ok out) ->
      nth_error (Returned.port_radius_data out) i = Some r ->
      nth_error (Returned.port_radius_data out) (S i) = Some r' ->
      PrimFloat.leb r r' = true)
  /\ (forall (c : Constants R) (b : nat) (out : Returned.t R)
             (i : nat) (r r' : R),
        valid c ->
        simulate_hybrid_rocket c b = Some (Ok out) ->
        nth_error (Returned.port_radius_data out) i = Some r ->
        nth_error (Returned.port_radius_data out) (S i) = Some r' ->
        (r <= r')%R).
Proof.
  split.
  - intros power c b out i r r' Hpower Hvalid Hfinite Hrun.
    exact (binary64_series_grows power Hpower c Hvalid Hfinite b out Hrun
                                 i r r').
  - intros c b out i r r' Hvalid Hrun Hr Hr'.
    destruct (exact_entries c Hvalid b out Hrun i) as (_ & E & _).
    destruct (exact_entries c Hvalid b out Hrun (S i)) as (_ & E' & _).
    rewrite (E _ Hr), (E' _ Hr').
    apply Rlt_le.
    exact (radius_after_grows c Hvalid (radius_before c (S i))).
Qed.

Lemma port_radius_series_nondecreasing_witness :
  (exists out,
      simulate_hybrid_rocket (A := binary64_with rounded_pow)
                             growing_floats 10 = Some (Ok out)
      /\ Returned.port_radius_data out
         = [1.25%float; 1.4099999999999999%float]
      /\ PrimFloat.leb 1.25%float 1.4099999999999999%float = true)
  /\ (exists out,
        simulate_hybrid_rocket brief_floats 10 = Some (Ok out)
        /\ forall i r r',
            nth_error (Returned.port_radius_data out) i = Some r ->
            nth_error (Returned.port_radius_data out) (S i) = Some r' ->
            PrimFloat.leb r r' = true)
  /\ (exists out,
        simulate_hybrid_rocket source_constants
                               (S (pass_bound source_constants))
        = Some (Ok out)
        /\ forall i r r',
            nth_error (Returned.port_radius_data out) i = Some r ->
            nth_error (Returned.port_radius_data out) (S i) = Some r' ->
            (r <= r')%R).
Proof.
  split; [|split].
  - assert (H : exists out,
               simulate_hybrid_rocket (A := binary64_with rounded_pow)
                                      growing_floats 10 = Some (Ok out)
               /\ Returned.port_radius_data out
                  = [1.25%float; 1.4099999999999999%float])
      by (eexists; split; [vm_compute; reflexivity | reflexivity]).
    destruct H as (out & H & E).
    exists out. split; [exact H|]. split; [exact E|].
    apply (proj1 port_radius_series_nondecreasing
                 rounded_pow growing_floats 10 out 0
                 1.25%float 1.4099999999999999%float
                 rounded_pow_nonnegative eq_refl eq_refl H);
      rewrite E; reflexivity.
  - destruct brief_run_returns as (out & H).
    exists out. split; [exact H|]. intros i r r'.
    exact (proj1 port_radius_series_nondecreasing
                 binary64_pow brief_floats 10 out i r r'
                 binary64_pow_nonnegative eq_refl eq_refl H).
  - destruct (exact_run_returns source_constants source_constants_valid)
      as (out & H & _).
    exists out. split; [exact H|]. intros i r r'.
    exact (proj2 port_radius_series_nondecreasing
                 source_constants _ out i r r' source_constants_valid H).
Defined.



(** C10.  In every arithmetic, every entry of the port-radius series but
    the last passed the test [port_radius < MAX_PORT_RADIUS] of the next
    pass, and the last entry is the final port radius, recorded after the
    update.  The last entry can exceed the limit: on [overshoot_constants],
    which are valid, the only entry lies above [MAX_PORT_RADIUS]. *)
Theorem recorded_radius_below_limit :
  (forall (num : Type) (A : Arith num) (c : Constants num)
          (b : nat) (out : Returned.t num),
      simulate_hybrid_rocket c b = Some (Ok out) ->
      (forall i r,
          nth_error (Returned.port_radius_data out) i = Some r ->
          S i < length (Returned.port_radius_data out) ->
          lt r (MAX_PORT_RADIUS c) = true)
      /\ nth_error (Returned.port_radius_data out)
                   (length (Returned.port_radius_data out) - 1)
         = Some (Returned.final_port_radius out))
  /\ (valid overshoot_constants
      /\ exists out r,
          simulate_hybrid_rocket overshoot_constants
                                 (S (pass_bound overshoot_constants))
          = Some (Ok out)
          /\ Returned.port_radius_data out = [r]
          /\ Returned.final_port_radius out = r
          /\ (MAX_PORT_RADIUS overshoot_constants < r)%R).
Proof.
  split.
  - intros num A c. exact (radius_entries_tested c).
  - exact first_pass_overshoots.
Qed.

Lemma recorded_radius_below_limit_witness :
  exists out,
    simulate_hybrid_rocket brief_floats 10 = Some (Ok out)
    /\ (forall i r,
          nth_error (Returned.port_radius_data out) i = Some r ->
          S i < length (Returned.port_radius_data out) ->
          PrimFloat.ltb r (MAX_PORT_RADIUS brief_floats) = true)
    /\ nth_error (Returned.port_radius_data out)
                 (length (Returned.port_radius_data out) - 1)
       = Some (Returned.final_port_radius out).
Proof.
  destruct brief_run_returns as (out & H).
  exists out. split; [exact H|].
  exact (proj1 recorded_radius_below_limit _ _ brief_floats 10 out H).
Defined.

(* ------------------------------------------------------------------ *)
(** ** What a returned tuple holds, in every arithmetic *)

Section Returned_values.
Context {num : Type} {A : Arith num}.
Variable c : Constants num.

(** A history that ends in locals with a bound chamber pressure is not
    empty. *)
Lemma History_bound_nonempty
      (h : list (Locals num * Locals num)) (l : Locals num) (p : num) :
  History c h l -> chamber_pressure l = Some p -> h <> [].
Proof.
  intros Hh Hp ->. apply History_nil_inv in Hh. subst l. discriminate.
Qed.

(** The last pass of a returning run, with what the tuple takes from it. *)
Lemma run_last_pass (b : nat) (out : Returned.t num) :
  simulate_hybrid_rocket c b = Some (Ok out) ->
  exists h a l,
    History c h l
    /\ nth_error h (length h - 1) = Some (a, l)
    /\ 0 < length h
    /\ return_tuple l = Ok out.
Proof.
  intros H. destruct (run_History c b out H) as (h & l & Hh & _ & Hr).
  pose proof (return_tuple_Ok l out Hr) as (_ & _ & _ & _ & _ & _ & Hp & _).
  pose proof (History_bound_nonempty h l _ Hh Hp) as Hne.
  destruct (History_last_pass c h l Hh Hne) as (a & Ha).
  exists h, a, l. repeat split; try assumption.
  destruct h; [congruence | simpl; lia].
Qed.

Lemma returned_last_entries (b : nat) (out : Returned.t num) :
  simulate_hybrid_rocket c b = Some (Ok out) ->
  exists n,
    length (Returned.time_data out) = S n
    /\ nth_error (Returned.port_radius_data out) n
       = Some (Returned.final_port_radius out)
    /\ nth_error (Returned.chamber_pressure_data out) n
       = Some (Returned.final_chamber_pressure out)
    /\ nth_error (Returned.thrust_data out) n
       = Some (Returned.final_thrust out)
    /\ div (Returned.final_thrust out) (THROAT_AREA c)
       = Ok (Returned.final_chamber_pressure out).
Proof.
  intros H.
  destruct (run_last_pass b out H) as (h & a & l & Hh & Ha & Hpos & Hr).
  apply return_tuple_Ok in Hr as (E1 & E2 & E3 & E4 & _ & E6 & Hp & Hf).
  destruct (History_lengths c h l Hh) as (L1 & _).
  destruct (History_row c h l Hh _ _ _ Ha)
    as (p & f & Hp' & Hf' & _ & R2 & R3 & R4).
  exists (length h - 1).
  rewrite E1, E2, E3, E4, E6, L1, R2, R3, R4.
  assert (p = Returned.final_chamber_pressure out) by congruence.
  assert (f = Returned.final_thrust out) by congruence. subst p f.
  repeat split; [lia|].
  destruct (History_nth c h l Hh _ _ _ Ha) as (_ & Hb & _).
  apply loop_body_Ok in Hb
    as (r2 & flux & rate & pressure & _ & _ & _ & Hcp & Hb).
  rewrite Hb in Hp, Hf. simpl in Hp, Hf.
  injection Hp as Ep. injection Hf as Ef. rewrite <- Ep, <- Ef.
  exact Hcp.
Qed.

(** The three final scalars of a returned tuple are the last entries of
    their series, and the final chamber pressure is the final thrust divided
    by the throat area. *)
Theorem final_scalars_are_last_entries (b : nat) (out : Returned.t num) :
  simulate_hybrid_rocket c b = Some (Ok out) ->
  exists n,
    length (Returned.time_data out) = S n
    /\ nth_error (Returned.port_radius_data out) n
       = Some (Returned.final_port_radius out)
    /\ nth_error (Returned.chamber_pressure_data out) n
       = Some (Returned.final_chamber_pressure out)
    /\ nth_error (Returned.thrust_data out) n
       = Some (Returned.final_thrust out)
    /\ div (Returned.final_thrust out) (THROAT_AREA c)
       = Ok (Returned.final_chamber_pressure out).
Proof. exact (returned_last_entries b out). Qed.

(** Every recorded time passed the test against the duration. *)
Theorem recorded_times_below_duration
        (b : nat) (out : Returned.t num) (i : nat) (t : num) :
  simulate_hybrid_rocket c b = Some (Ok out) ->
  nth_error (Returned.time_data out) i = Some t ->
  lt t (SIMULATION_DURATION c) = true.
Proof.
  intros H Ht.
  destruct (run_clock c b out H) as (Hi & _).
  assert (Hlt : i < length (Returned.time_data out))
    by (apply nth_error_Some; congruence).
  destruct (Hi i Hlt) as (E & Htest). congruence.
Qed.

(** The fuel flow rates of the passes of a history, and the fuel they add
    up to. *)
Lemma History_consumed
      (h : list (Locals num * Locals num)) (l : Locals num) :
  History c h l ->
  exists fuels,
    map Some fuels = map (fun p => fuel_flow_rate (snd p)) h
    /\ total_fuel_consumed l = consumed c fuels.
Proof.
  induction 1 as [|h l l' Hh (fuels & Ef & Et) Ht Hb].
  - exists []. split; reflexivity.
  - apply loop_body_Ok in Hb
      as (r2 & flux & rate & pressure & _ & _ & _ & _ & ->).
    eexists (fuels ++ [_]). rewrite !map_app, Ef. simpl. split; [reflexivity|].
    unfold consumed. rewrite fold_left_app. simpl. f_equal. exact Et.
Qed.

(** The total fuel consumed is the accumulation, from [0] and in the order
    of the passes, of [fuel * DELTA_T] over the fuel flow rates of the
    passes; the fuel flow rate of pass [i] is the one computed at the
    recorded radius [i], and the recorded thrust [i] is the thrust of the
    oxidizer flow plus that fuel flow. *)
Theorem fuel_consumed_accumulates (b : nat) (out : Returned.t num) :
  simulate_hybrid_rocket c b = Some (Ok out) ->
  exists fuels,
    length fuels = length (Returned.thrust_data out)
    /\ Returned.total_fuel_consumed out = consumed c fuels
    /\ forall i fuel,
        nth_error fuels i = Some fuel ->
        nth_error (Returned.thrust_data out) i
        = Some (calculate_thrust
                  c (add (OXIDIZER_MASS_FLOW_RATE c) fuel))
        /\ exists radius rate,
            nth_error (Returned.port_radius_data out) i = Some radius
            /\ fuel = calculate_fuel_flow_rate c radius rate.
Proof.
  intros H. destruct (run_History c b out H) as (h & l & Hh & _ & Hr).
  apply return_tuple_Ok in Hr as (_ & E2 & _ & E4 & E5 & _).
  destruct (History_consumed h l Hh) as (fuels & Ef & Et).
  destruct (History_lengths c h l Hh) as (_ & _ & _ & L4).
  exists fuels. rewrite E2, E4, E5, L4.
  split; [|split; [exact Et|]].
  { rewrite <- (length_map Some fuels), Ef. apply length_map. }
  intros i fuel Hfi.
  assert (Hi : i < length h).
  { rewrite <- (length_map (fun p => fuel_flow_rate (snd p)) h), <- Ef,
      length_map. apply nth_error_Some. congruence. }
  destruct (History_pass_at c h l i Hh Hi) as (a & b' & Hab).
  destruct (History_row c h l Hh _ _ _ Hab)
    as (p & f & _ & Hf & _ & R2 & _ & R4).
  destruct (History_nth c h l Hh _ _ _ Hab) as (_ & Hb & _).
  apply loop_body_Ok in Hb as (? & ? & rate & ? & _ & _ & _ & _ & Hb).
  assert (Hfuel : fuel_flow_rate b' = Some fuel).
  { assert (E : nth_error (map Some fuels) i = Some (Some fuel))
      by (rewrite nth_error_map, Hfi; reflexivity).
    rewrite Ef, nth_error_map, Hab in E. simpl in E. congruence. }
  rewrite Hb in Hfuel, Hf. simpl in Hfuel, Hf. injection Hfuel as E.
  split.
  - rewrite R4, <- Hf, <- E. reflexivity.
  - exists (port_radius b'), rate. split; [exact R2|].
    rewrite Hb. simpl. now rewrite E.
Qed.

End Returned_values.

Section Throat.
Context {num : Type} {A : Arith num}.
Variable c : Constants num.

(** When no division by the throat area succeeds, no pass completes and the
    simulation never returns. *)
Lemma undividable_throat_never_returns (b : nat) (out : Returned.t num) :
  (forall x p, div x (THROAT_AREA c) <> Ok p) ->
  simulate_hybrid_rocket c b <> Some (Ok out).
Proof.
  intros Hdiv H.
  destruct (run_last_pass c b out H) as (h & a & l & Hh & Ha & _ & _).
  destruct (History_nth c h l Hh _ _ _ Ha) as (_ & Hb & _).
  apply loop_body_Ok in Hb as (? & ? & ? & p & _ & _ & _ & Hcp & _).
  exact (Hdiv _ _ Hcp).
Qed.
End Throat.

(** With a throat area of zero the simulation never returns a tuple: in
    exact arithmetic, and in binary64 (for a zero of either sign) whatever
    the power function. *)
Theorem zero_throat_area_never_returns :
  (forall (c : Constants R) (b : nat) (out : Returned.t R),
      THROAT_AREA c = 0%R ->
      simulate_hybrid_rocket c b <> Some (Ok out))
  /\ (forall (power : float -> float -> result float)
             (c : Constants float) (b : nat) (out : Returned.t float),
        PrimFloat.eqb (THROAT_AREA c) 0%float = true ->
        simulate_hybrid_rocket (A := binary64_with power) c b
        <> Some (Ok out)).
Proof.
  split.
  - intros c b out E. apply undividable_throat_never_returns.
    intros x p. simpl. unfold exact_div.
    destruct (Req_dec_T (THROAT_AREA c) 0); [discriminate | contradiction].
  - intros power c b out E.
    apply (undividable_throat_never_returns (A := binary64_with power)).
    intros x p. simpl. unfold binary64_div. rewrite E. discriminate.
Qed.

Section Presentation.
Context {num : Type} {A : Arith num}.
Variable c : Constants num.

Lemma plot_results_plots (td prd cpd thd x y : list num) label color :
  In (Plot x y label color) (plot_results td prd cpd thd) ->
  x = td /\ (y = prd \/ y = cpd \/ y = thd).
Proof.
  unfold plot_results. simpl. intros H.
  repeat (destruct H as [H|H]; [try discriminate; inversion H; subst; auto|]).
  contradiction.
Qed.

(** When [main] completes it has printed four lines, with the total fuel
    and the three final scalars of the simulation, and then made the calls of
    [plot_results] on the four series.  Every [plot] call got the time
    series as [x] and a [y] of the same length, and the final port radius,
    chamber pressure and thrust that were printed are the last points of the
    three curves. *)
Theorem main_output (b : nat) (effects : list (effect num)) :
  main c b = Some (Ok effects) ->
  exists out n,
    simulate_hybrid_rocket c b = Some (Ok out)
    /\ effects
       = [ Print "Simulation completed. Total fuel consumed: "
                 (Returned.total_fuel_consumed out) 2 " kg";
           Print "Final port radius: "
                 (Returned.final_port_radius out) 3 " m";
           Print "Final chamber pressure: "
                 (Returned.final_chamber_pressure out) 2 " Pa";
           Print "Final thrust: " (Returned.final_thrust out) 2 " N" ]
         ++ plot_results (Returned.time_data out)
                         (Returned.port_radius_data out)
                         (Returned.chamber_pressure_data out)
                         (Returned.thrust_data out)
    /\ (forall x y label color,
          In (Plot x y label color) effects ->
          x = Returned.time_data out /\ length y = length x)
    /\ length (Returned.time_data out) = S n
    /\ nth_error (Returned.port_radius_data out) n
       = Some (Returned.final_port_radius out)
    /\ nth_error (Returned.chamber_pressure_data out) n
       = Some (Returned.final_chamber_pressure out)
    /\ nth_error (Returned.thrust_data out) n
       = Some (Returned.final_thrust out).
Proof.
  unfold main. intros H.
  destruct (simulate_hybrid_rocket c b) as [[out|e]|] eqn:E;
    try discriminate.
  cbv zeta in H. injection H as H.
  destruct (returned_last_entries c b out E)
    as (n & Hn & H1 & H2 & H3 & _).
  destruct (returned_lengths c b out E) as (L2 & L3 & L4).
  exists out, n. split; [reflexivity|]. split; [now symmetry|].
  split; [|repeat split; assumption].
  intros x y label color Hin. rewrite <- H in Hin.
  do 4 (destruct Hin as [Hin|Hin]; [discriminate|]).
  apply plot_results_plots in Hin as (Hx & Hy). subst x.
  split; [reflexivity|].
  destruct Hy as [Hy|[Hy|Hy]]; subst y; assumption.
Qed.

End Presentation.

(* ------------------------------------------------------------------ *)
(** ** More on runs in exact arithmetic *)

Section ExactMore.
Variable c : Constants R.

Local Open Scope R_scope.






End ExactMore.

Section ValidMore.
Variable c : Constants R.
Hypothesis Hvalid : valid c.

Local Open Scope R_scope.







Variable b : nat.
Variable out : Returned.t R.
Hypothesis Hrun : simulate_hybrid_rocket c b = Some (Ok out).




End ValidMore.


(** In binary64, whatever the power function, a duration that is not above
    zero or a maximum port radius that is not above the initial one (a NaN
    in either place included) leaves the loop without a pass, and the call
    raises [UnboundLocalError]. *)
Theorem binary64_degenerate_raises
        (power : float -> float -> result float)
        (c : Constants float) (b : nat) :
  PrimFloat.ltb 0%float (SIMULATION_DURATION c) = false
  \/ PrimFloat.ltb (INITIAL_PORT_RADIUS c) (MAX_PORT_RADIUS c) = false ->
  simulate_hybrid_rocket (A := binary64_with power) c (S b)
  = Some (Raise (UnboundLocalError "chamber_pressure"))
  /\ main (A := binary64_with power) c (S b)
     = Some (Raise (UnboundLocalError "chamber_pressure")).
Proof.
  intros H.
  assert (Htest : loop_test (A := binary64_with power) c
                            (initial_locals (A := binary64_with power) c)
                  = false).
  { unfold loop_test. simpl.
    destruct H as [H|H]; rewrite H;
      [reflexivity | apply andb_false_r]. }
  destruct (no_pass_raises (A := binary64_with power) c b Htest) as (_ & E).
  split; [exact E|]. unfold main. now rewrite E.
Qed.

Section Growth.
Variable c : Constants R.
Hypothesis Hvalid : valid c.

Local Open Scope R_scope.



End Growth.




Lemma binary64_degenerate_raises_witness :
  simulate_hybrid_rocket degenerate_floats 1
  = Some (Raise (UnboundLocalError "chamber_pressure"))
  /\ main degenerate_floats 1
     = Some (Raise (UnboundLocalError "chamber_pressure")).
Proof.
  apply (binary64_degenerate_raises binary64_pow degenerate_floats 0).
  right. reflexivity.
Defined.

(* ------------------------------------------------------------------ *)
(** ** [main] in exact arithmetic *)


(** In exact arithmetic, when the maximum port radius is not above the
    initial one, or the duration is not positive, [main] raises
    [UnboundLocalError] before it prints or plots anything. *)
Theorem main_degenerate_raises (c : Constants R) (b : nat) :
  (MAX_PORT_RADIUS c <= INITIAL_PORT_RADIUS c
   \/ SIMULATION_DURATION c <= 0)%R ->
  main c (S b) = Some (Raise (UnboundLocalError "chamber_pressure")).
Proof.
  intros H. unfold main.
  assert (Htest : loop_test c (initial_locals c) = false).
  { unfold loop_test. simpl.
    destruct H as [H|H]; apply (proj2 (Rlt_bool_false _ _)) in H; rewrite H;
      [apply andb_false_r | reflexivity]. }
  destruct (no_pass_raises c b Htest) as (_ & ->). reflexivity.
Qed.

(* ------------------------------------------------------------------ *)
(** ** Instances *)

Lemma final_scalars_are_last_entries_witness :
  exists out n,
    simulate_hybrid_rocket brief_floats 10 = Some (Ok out)
    /\ length (Returned.time_data out) = S n
    /\ nth_error (Returned.thrust_data out) n
       = Some (Returned.final_thrust out)
    /\ binary64_div (Returned.final_thrust out) (THROAT_AREA brief_floats)
       = Ok (Returned.final_chamber_pressure out).
Proof.
  destruct brief_run_returns as (out & H).
  destruct (final_scalars_are_last_entries brief_floats 10 out H)
    as (n & Hn & _ & _ & H3 & H4).
  exists out, n. repeat split; assumption.
Defined.

Lemma recorded_times_below_duration_witness :
  exists out t,
    simulate_hybrid_rocket brief_floats 10 = Some (Ok out)
    /\ nth_error (Returned.time_data out) 4 = Some t
    /\ PrimFloat.ltb t (SIMULATION_DURATION brief_floats) = true.
Proof.
  destruct brief_run_returns as (out & H).
  destruct (nth_error (Returned.time_data out) 4) as [t|] eqn:Et.
  - exists out, t. repeat split; try assumption.
    exact (recorded_times_below_duration brief_floats 10 out 4 t H Et).
  - exfalso. vm_compute in H. inversion H; subst out. discriminate Et.
Defined.

Lemma fuel_consumed_accumulates_witness :
  exists out fuels,
    simulate_hybrid_rocket brief_floats 10 = Some (Ok out)
    /\ length fuels = length (Returned.thrust_data out)
    /\ Returned.total_fuel_consumed out = consumed brief_floats fuels.
Proof.
  destruct brief_run_returns as (out & H).
  destruct (fuel_consumed_accumulates brief_floats 10 out H)
    as (fuels & H1 & H2 & _).
  exists out, fuels. repeat split; assumption.
Defined.

Lemma zero_throat_area_never_returns_witness :
  (forall out,
      simulate_hybrid_rocket (with_throat_area 0%R source_constants) 2000
      <> Some (Ok out))
  /\ (forall out,
        simulate_hybrid_rocket (with_throat_area 0%float slow_burn_floats)
                               2000
        <> Some (Ok out)).
Proof.
  split; intros out.
  - apply (proj1 zero_throat_area_never_returns). reflexivity.
  - apply (proj2 zero_throat_area_never_returns binary64_pow). reflexivity.
Defined.

Lemma main_output_witness :
  exists effects out,
    main brief_floats 10 = Some (Ok effects)
    /\ simulate_hybrid_rocket brief_floats 10 = Some (Ok out)
    /\ forall x y label color,
        In (Plot x y label color) effects ->
        x = Returned.time_data out /\ length y = length x.
Proof.
  destruct brief_run_returns as (out & H).
  destruct (main brief_floats 10) as [[effects|e]|] eqn:E.
  - destruct (main_output brief_floats 10 effects E)
      as (out' & n & H' & _ & Hplot & _).
    assert (out' = out) by congruence. subst out'.
    exists effects, out. split; [reflexivity|]. split; [exact H|].
    exact Hplot.
  - exfalso. unfold main in E. rewrite H in E. discriminate.
  - exfalso. unfold main in E. rewrite H in E. discriminate.
Defined.









Lemma main_degenerate_raises_witness :
  main degenerate_constants 1
  = Some (Raise (UnboundLocalError "chamber_pressure")).
Proof.
  apply (main_degenerate_raises degenerate_constants 0).
  left. simpl. lra.
Defined.
